(** * Ds-bot: the CSV profiler, the validator and the payload extractor

    A shallow embedding of the logic of [src/App.tsx] (the profiler that reads
    the whole dataset, the validator and the response handler) and of the
    earlier profiler kept in the repository ([inferDataType] and the sampling
    [analyzeColumns]), followed by the properties of the specification.

    Text is a sequence of code units.  The model keeps the code units below
    256 (type [ascii]); the white space of [String.prototype.trim] is given on
    that range.  Numbers are IEEE 754 binary64 values, taken from the
    specification of floating point numbers of the Standard Library
    ([spec_float] with precision 53 and maximal exponent 1024). *)

From Stdlib Require Import ZArith Ascii String DecimalString Lia.
From Stdlib Require Import Floats.SpecFloat.
From stdpp Require Import base tactics option list strings finite gmap sorting.

Local Open Scope nat_scope.
Set Warnings "-register-all".

(** ** Strings of the host language *)

Module JS.

Abbreviation jsstring := (list ascii).

Definition str (s : string) : jsstring := list_ascii_of_string s.
Arguments str s%_string.

Definition nl : ascii := "010"%char.
Definition comma : ascii := ","%char.
Definition dquote : ascii := "034"%char.
Definition backtick : ascii := "`"%char.

(** White space and line terminators, as [trim] and [Number] see them:
    TAB, LF, VT, FF, CR, SP and NBSP. *)
Definition is_ws (c : ascii) : bool :=
  existsb (N.eqb (N_of_ascii c)) [9; 10; 11; 12; 13; 32; 160]%N.

Fixpoint ltrim (s : jsstring) : jsstring :=
  match s with
  | [] => []
  | c :: t => if is_ws c then ltrim t else s
  end.

Definition rtrim (s : jsstring) : jsstring := rev (ltrim (rev s)).

(** [s.trim()] *)
Definition trim (s : jsstring) : jsstring := rtrim (ltrim s).

(** [s.trim() !== ''] *)
Definition nonblank (s : jsstring) : bool :=
  match trim s with [] => false | _ :: _ => true end.

(** [s.split(sep)] for a separator of one code unit: never empty. *)
Fixpoint split (sep : ascii) (s : jsstring) : list jsstring :=
  match s with
  | [] => [[]]
  | c :: t =>
      if Ascii.eqb c sep then [] :: split sep t
      else match split sep t with
           | h :: r => (c :: h) :: r
           | [] => [[c]]
           end
  end.

(** [s.replace(re, '')] where [re] is the global pattern of one double
    quote: every double quote goes. *)
Definition remove_dquotes (s : jsstring) : jsstring :=
  List.filter (fun c => negb (Ascii.eqb c dquote)) s.

(** [s.toLowerCase()] on the letters A to Z; the words it is compared with
    below are ASCII, and no other code unit lowers to an ASCII letter of
    them. *)
Definition lower (c : ascii) : ascii :=
  let n := N_of_ascii c in
  if ((65 <=? n) && (n <=? 90))%N then ascii_of_N (n + 32) else c.

Definition toLowerCase (s : jsstring) : jsstring := map lower s.

Definition eqb_str (a b : jsstring) : bool := bool_decide (a = b).

(** [s.startsWith(p)] *)
Fixpoint starts_with (p s : jsstring) : bool :=
  match p, s with
  | [], _ => true
  | _ :: _, [] => false
  | a :: p', b :: s' => Ascii.eqb a b && starts_with p' s'
  end.

(** The first occurrence of [p] in [s]: the text before it and the text
    after it. *)
Fixpoint find_sub (p s : jsstring) : option (jsstring * jsstring) :=
  if starts_with p s then Some ([], drop (length p) s)
  else match s with
       | [] => None
       | c :: t =>
           match find_sub p t with
           | Some (a, b) => Some (c :: a, b)
           | None => None
           end
       end.

End JS.
Import JS.

(** ** Numbers: IEEE 754 binary64 *)

Module Num.

Definition prec : Z := 53.
Definition emax : Z := 1024.

Abbreviation number := spec_float.

Definition NaN : number := S754_nan.
Definition zero : number := S754_zero false.

Definition add : number -> number -> number := SFadd prec emax.
Definition sub : number -> number -> number := SFsub prec emax.
Definition mul : number -> number -> number := SFmul prec emax.
Definition div : number -> number -> number := SFdiv prec emax.

(** [Math.sqrt] *)
Definition sqrt : number -> number := SFsqrt prec emax.

(** [Math.pow(x, 2)], taken as the correctly rounded square. *)
Definition pow2 (x : number) : number := mul x x.

(** The number nearest to an integer (ties to even). *)
Definition of_Z (z : Z) : number := binary_normalize prec emax z 0 false.
Definition of_nat (n : nat) : number := of_Z (Z.of_nat n).

(** The number nearest to the fraction [p / q], with the sign [s]. *)
Definition ratio (s : bool) (p q : positive) : number :=
  div (S754_finite s p 0) (S754_finite false q 0).

(** The number nearest to [m * 10 ^ e], with the sign [s]. *)
Definition decimal (s : bool) (m e : Z) : number :=
  match m with
  | Zpos p =>
      match e with
      | Zneg k => ratio s p (Pos.pow 10 k)
      | _ => of_Z (if s then - (Zpos p * 10 ^ e) else Zpos p * 10 ^ e)
      end
  | _ => S754_zero s
  end.

Definition isNaN (x : number) : bool :=
  match x with S754_nan => true | _ => false end.

(** [x > 0] *)
Definition is_pos (x : number) : bool :=
  match x with
  | S754_finite false _ _ | S754_infinity false => true
  | _ => false
  end.

(** [parseFloat(x.toFixed(2))].  [toFixed] takes the integer [n] nearest to
    [100 * |x|], the larger one on a tie, and prints [n / 100] with the sign
    of [x]; from [1e21] on it prints [x] itself, as it does for the
    infinities and for [NaN].  [parseFloat] reads the digits back to the
    nearest number. *)
Definition toFixed2 (x : number) : number :=
  match x with
  | S754_finite s m e =>
      let big :=
        match e with
        | Zneg k => (10 ^ 21 * Zpos (Pos.pow 2 k) <=? Zpos m)%Z
        | _ => (10 ^ 21 <=? Zpos m * 2 ^ e)%Z
        end in
      if big then x
      else
        let n :=
          match e with
          | Zneg k => ((200 * Zpos m + Zpos (Pos.pow 2 k)) / (2 * Zpos (Pos.pow 2 k)))%Z
          | _ => (100 * Zpos m * 2 ^ e)%Z
          end in
        match n with
        | Zpos p => ratio s p 100
        | _ => S754_zero s
        end
  | S754_zero _ => S754_zero false
  | _ => x
  end.

(** *** [Number(s)] on a string *)

Definition is_digit (c : ascii) : bool :=
  let n := N_of_ascii c in ((48 <=? n) && (n <=? 57))%N.

Definition digit_val (c : ascii) : Z := Z.of_N (N_of_ascii c - 48).

(** The value of a hexadecimal, octal or binary digit, if it is one below
    the base. *)
Definition digit_in (base : Z) (c : ascii) : option Z :=
  let n := Z.of_N (N_of_ascii c) in
  let v :=
    if ((48 <=? n) && (n <=? 57))%Z then Some (n - 48)%Z
    else if ((97 <=? n) && (n <=? 102))%Z then Some (n - 87)%Z
    else if ((65 <=? n) && (n <=? 70))%Z then Some (n - 55)%Z
    else None in
  match v with
  | Some d => if (d <? base)%Z then Some d else None
  | None => None
  end.

Fixpoint span_digits (s : jsstring) : jsstring * jsstring :=
  match s with
  | c :: t =>
      if is_digit c then let '(d, r) := span_digits t in (c :: d, r)
      else ([], s)
  | [] => ([], [])
  end.

Definition digits_value (d : jsstring) : Z :=
  fold_left (fun acc c => (10 * acc + digit_val c)%Z) d 0%Z.

Fixpoint based_value (base : Z) (acc : Z) (s : jsstring) : option Z :=
  match s with
  | [] => Some acc
  | c :: t =>
      match digit_in base c with
      | Some d => based_value base (base * acc + d)%Z t
      | None => None
      end
  end.

(** The exponent part: nothing, or [e] or [E], a sign if any, and digits up
    to the end. *)
Definition exponent_part (s : jsstring) : option Z :=
  match s with
  | [] => Some 0%Z
  | c :: t =>
      if Ascii.eqb (lower c) "e"%char then
        let '(neg, t') :=
          match t with
          | "-"%char :: u => (true, u)
          | "+"%char :: u => (false, u)
          | _ => (false, t)
          end in
        match span_digits t' with
        | ((_ :: _) as d, []) =>
            Some (if neg then - digits_value d else digits_value d)%Z
        | _ => None
        end
      else None
  end.

(** An unsigned decimal literal: its digits as an integer and its power of
    ten.  Digits are needed before or after the dot. *)
Definition unsigned_decimal (s : jsstring) : option (Z * Z) :=
  let '(d1, r1) := span_digits s in
  let '(d2, r2) :=
    match r1 with
    | "."%char :: r => span_digits r
    | _ => ([], r1)
    end in
  match d1 ++ d2 with
  | [] => None
  | ds =>
      match exponent_part r2 with
      | Some e => Some (digits_value ds, (e - Z.of_nat (length d2))%Z)
      | None => None
      end
  end.

Definition signed_decimal (s : jsstring) : number :=
  let '(neg, u) :=
    match s with
    | "-"%char :: t => (true, t)
    | "+"%char :: t => (false, t)
    | _ => (false, s)
    end in
  if eqb_str u (str "Infinity") then S754_infinity neg
  else match unsigned_decimal u with
       | Some (m, e) => decimal neg m e
       | None => NaN
       end.

Definition prefixed (base : Z) (t : jsstring) : number :=
  match t with
  | [] => NaN
  | _ => match based_value base 0 t with
         | Some v => of_Z v
         | None => NaN
         end
  end.

(** [Number(s)]: white space around the literal is dropped, the empty text
    is [0], a text that is no numeric literal is [NaN]. *)
Definition Number (s : jsstring) : number :=
  match trim s with
  | [] => zero
  | "0"%char :: c :: t =>
      if Ascii.eqb (lower c) "x"%char then prefixed 16 t
      else if Ascii.eqb (lower c) "o"%char then prefixed 8 t
      else if Ascii.eqb (lower c) "b"%char then prefixed 2 t
      else signed_decimal (trim s)
  | u => signed_decimal u
  end.

End Num.
Import Num.

(** ** The data model of [types.ts] *)

Inductive ColumnType :=
  | TString | TNumeric | TBoolean | TEmpty | TStringMixed | TMixed.

(** The text of a column type, as the code writes it. *)
Definition type_label (t : ColumnType) : jsstring :=
  match t with
  | TString => str "String"
  | TNumeric => str "Numeric"
  | TBoolean => str "Boolean"
  | TEmpty => str "Empty"
  | TStringMixed => str "String (Mixed)"
  | TMixed => str "Mixed"
  end.

Global Instance ColumnType_eq_dec : EqDecision ColumnType.
Proof. solve_decision. Defined.

Module NumericStats.
Record t := mk
  { mean : number; median : number; stdDev : number;
    min : number; max : number }.
End NumericStats.

Module CategoricalStats.
Record t := mk
  { valueCounts : list (jsstring * nat); uniqueValues : nat }.
End CategoricalStats.

Inductive Stats :=
  | SNumeric (s : NumericStats.t)
  | SCategorical (s : CategoricalStats.t).

Module ColumnInfo.
Record t := mk
  { name : jsstring;
    type : ColumnType;
    hasMissingValues : bool;
    totalRows : nat;
    missingCount : nat;
    stats : option Stats }.
End ColumnInfo.

Inductive IssueType := INCONSISTENT_ROW_LENGTH | MIXED_DATA_TYPE.

Global Instance IssueType_eq_dec : EqDecision IssueType.
Proof. solve_decision. Defined.

Module ValidationIssue.
Record t := mk
  { type : IssueType;
    column : option jsstring;
    row : nat;
    value : option jsstring;
    message : jsstring }.
End ValidationIssue.

(** ** [src/App.tsx]: statistics *)

(** [isNumeric] *)
Definition isNumeric (v : jsstring) : bool :=
  nonblank v && negb (isNaN (Number v)).

(** [[...data].sort((a, b) => a - b)]: the sort is stable; an element goes
    before the first one the comparator puts after it.  A comparison that
    is [NaN] or zero keeps the order. *)
Fixpoint sort_insert (x : number) (l : list number) : list number :=
  match l with
  | [] => [x]
  | y :: t => if is_pos (sub y x) then x :: l else y :: sort_insert x t
  end.

Definition sort (data : list number) : list number :=
  foldl (fun acc x => sort_insert x acc) [] data.

(** [a[i]] on numbers; out of range it is [undefined], which the arithmetic
    below turns into [NaN]. *)
Definition at_ (l : list number) (i : nat) : number := default NaN (l !! i).

(** [a.reduce(f)] without an initial value, on a list that is not empty. *)
Definition reduce1 (f : number -> number -> number) (l : list number) : number :=
  match l with
  | [] => NaN
  | x :: t => foldl f x t
  end.

Definition getNumericStats (data : list number) : NumericStats.t :=
  if decide (length data = 0) then
    NumericStats.mk zero zero zero zero zero
  else
    let sorted := sort data in
    let sum := foldl (fun acc val => add acc val) zero data in
    let mean := div sum (of_nat (length data)) in
    let mid := length sorted / 2 in
    let median :=
      if decide (length sorted mod 2 = 0)
      then div (add (at_ sorted (mid - 1)) (at_ sorted mid)) (of_nat 2)
      else at_ sorted mid in
    let stdDev :=
      sqrt (div (reduce1 (fun a b => add a b) (map (fun x => pow2 (sub x mean)) data))
                (of_nat (length data))) in
    {| NumericStats.mean := toFixed2 mean;
       NumericStats.median := toFixed2 median;
       NumericStats.stdDev := toFixed2 stdDev;
       NumericStats.min := at_ sorted 0;
       NumericStats.max := at_ sorted (length sorted - 1) |}.

(** [acc[val] = (acc[val] || 0) + 1] on the record of counts, kept in the
    order in which the values first appear.  The record is modelled by its own
    properties: a cell that names a property every object inherits (such as
    [constructor]) is not told apart here, and the statements below read
    nothing of the counts but the empty case. *)
Fixpoint bump (val : jsstring) (acc : list (jsstring * nat)) : list (jsstring * nat) :=
  match acc with
  | [] => [(val, 1)]
  | (k, n) :: r => if eqb_str k val then (k, S n) :: r else (k, n) :: bump val r
  end.

Definition getCategoricalStats (data : list jsstring) : CategoricalStats.t :=
  let valueCounts := foldl (fun acc val => bump val acc) [] data in
  {| CategoricalStats.valueCounts := valueCounts;
     CategoricalStats.uniqueValues := length valueCounts |}.

(** ** [src/App.tsx]: the profiler *)

(** [cell.trim().replace(re, '')], the cleaning of a header or of a cell. *)
Definition clean (cell : jsstring) : jsstring := remove_dquotes (trim cell).

Definition parseLine (line : jsstring) : list jsstring :=
  map clean (split comma line).

(** The callback of [headers.map] in [analyzeColumns]. *)
Definition profileColumn (rows : list (list jsstring)) (colIndex : nat)
    (header : jsstring) : ColumnInfo.t :=
  let columnValues := omap (fun row : list jsstring => row !! colIndex) rows in
  let nonMissingValues := List.filter nonblank columnValues in
  let missingCount := length columnValues - length nonMissingValues in
  let totalRows := length rows in
  let isPotentiallyNumeric := forallb isNumeric nonMissingValues in
  let some := 0 <? length nonMissingValues in
  if isPotentiallyNumeric && some then
    {| ColumnInfo.name := header;
       ColumnInfo.type := TNumeric;
       ColumnInfo.hasMissingValues := 0 <? missingCount;
       ColumnInfo.totalRows := totalRows;
       ColumnInfo.missingCount := missingCount;
       ColumnInfo.stats := Some (SNumeric (getNumericStats (map Number nonMissingValues))) |}
  else
    let uniqueValues := remove_dups nonMissingValues in
    {| ColumnInfo.name := header;
       ColumnInfo.type :=
         if (length uniqueValues <=? 2) && some then TBoolean else TString;
       ColumnInfo.hasMissingValues := 0 <? missingCount;
       ColumnInfo.totalRows := totalRows;
       ColumnInfo.missingCount := missingCount;
       ColumnInfo.stats := Some (SCategorical (getCategoricalStats nonMissingValues)) |}.

(** The table the profiler reads from the text: the header and the rows,
    when there are two lines or more. *)
Definition parseTable (csvText : jsstring) : option (list jsstring * list (list jsstring)) :=
  match split nl (trim csvText) with
  | first :: ((_ :: _) as rest) => Some (parseLine first, map parseLine rest)
  | _ => None
  end.

Definition profile (headers : list jsstring) (rows : list (list jsstring)) : list ColumnInfo.t :=
  imap (profileColumn rows) headers.

Definition analyzeColumns (csvText : jsstring) : list ColumnInfo.t :=
  match parseTable csvText with
  | Some (headers, rows) => profile headers rows
  | None => []
  end.

(** ** [src/App.tsx]: the validator *)

Definition show_nat (n : nat) : jsstring :=
  str (NilEmpty.string_of_uint (Nat.to_uint n)).

Definition rowLengthIssue (headerCount rowIndex found : nat) : ValidationIssue.t :=
  {| ValidationIssue.type := INCONSISTENT_ROW_LENGTH;
     ValidationIssue.column := None;
     ValidationIssue.row := rowIndex + 2;
     ValidationIssue.value := None;
     ValidationIssue.message :=
       str "Expected " ++ show_nat headerCount ++ str " columns, but found "
         ++ show_nat found ++ str "." |}.

Definition mixedTypeIssue (header : jsstring) (rowIndex : nat) (cell : jsstring)
    : ValidationIssue.t :=
  {| ValidationIssue.type := MIXED_DATA_TYPE;
     ValidationIssue.column := Some header;
     ValidationIssue.row := rowIndex + 2;
     ValidationIssue.value := Some cell;
     ValidationIssue.message :=
       str "Found non-numeric value " ++ [dquote] ++ cell ++ [dquote]
         ++ str " in the supposedly numeric column " ++ [dquote] ++ header
         ++ [dquote] ++ str "." |}.

(** The callback of [rows.forEach] in [validateCsvData]: the issues one row
    adds. *)
Definition validateRow (headers numericColumns : list jsstring) (rowIndex : nat)
    (row : list jsstring) : list ValidationIssue.t :=
  if negb (length row =? length headers) then
    [rowLengthIssue (length headers) rowIndex (length row)]
  else
    concat (imap (fun colIndex cell =>
      match headers !! colIndex with
      | Some header =>
          if bool_decide (header ∈ numericColumns) && nonblank cell && negb (isNumeric cell)
          then [mixedTypeIssue header rowIndex cell]
          else []
      | None => []
      end) row).

Definition validateCsvData (headers : list jsstring) (rows : list (list jsstring))
    (columnInfo : list ColumnInfo.t) : list ValidationIssue.t :=
  let numericColumns :=
    map ColumnInfo.name
      (List.filter (fun c => bool_decide (ColumnInfo.type c = TNumeric)) columnInfo) in
  concat (imap (validateRow headers numericColumns) rows).

(** ** The earlier profiler: cell classification over a sample

    The repository keeps an earlier [App.tsx] whose [analyzeColumns] reads the
    first 50 rows, classifies every cell with [inferDataType] and reduces the
    classifications of a column to one type. *)

Module Sampling.

Inductive CellType := CNumeric | CBoolean | CString.

Global Instance CellType_eq_dec : EqDecision CellType.
Proof. solve_decision. Defined.

Global Instance CellType_finite : Finite CellType.
Proof.
  refine {| enum := [CNumeric; CBoolean; CString] |}.
  - apply (bool_decide_unpack _). reflexivity.
  - intros []; apply (bool_decide_unpack _); reflexivity.
Defined.

Definition cell_label (t : CellType) : ColumnType :=
  match t with
  | CNumeric => TNumeric
  | CBoolean => TBoolean
  | CString => TString
  end.

Definition booleanWords : list jsstring :=
  [str "true"; str "false"; str "yes"; str "no"; str "0"; str "1"].

Definition inferDataType (value : jsstring) : CellType :=
  if negb (nonblank value) then CString
  else if bool_decide (toLowerCase value ∈ booleanWords) then CBoolean
  else if negb (isNaN (Number value)) && nonblank value then CNumeric
  else CString.

Record ColumnInfo := mkColumnInfo
  { name : jsstring; type : ColumnType; hasMissingValues : bool }.

(** [set.add(t)] on a set kept in insertion order. *)
Definition set_add (t : CellType) (types : list CellType) : list CellType :=
  if bool_decide (t ∈ types) then types else types ++ [t].

(** The reduction of the classifications of a column: the callback of the
    final [map] of [analyzeColumns], on [Array.from(columnTypes[header])]. *)
Definition finalType (types : list CellType) : ColumnType :=
  match types with
  | [] => TEmpty
  | [t] => cell_label t
  | _ =>
      if bool_decide (CString ∈ types) then TStringMixed
      else if bool_decide (CNumeric ∈ types) && bool_decide (CBoolean ∈ types)
           then TNumeric
           else TMixed
  end.

(** The state of the two loops: [columnTypes], a dictionary from the header
    to the set of classifications, and [columnsWithMissingValues]. *)
Definition scan := (gmap jsstring (list CellType) * gset jsstring)%type.

Definition visitCell (row : list jsstring) (st : scan) (ih : nat * jsstring) : scan :=
  let '(index, header) := ih in
  match header with
  | [] => st
  | _ :: _ =>
      match row !! index with
      | Some cellValue =>
          if nonblank cellValue
          then (alter (set_add (inferDataType cellValue)) header st.1, st.2)
          else (st.1, {[header]} ∪ st.2)
      | None => (st.1, {[header]} ∪ st.2)
      end
  end.

Definition visitRow (headers : list jsstring) (st : scan) (row : list jsstring) : scan :=
  foldl (visitCell row) st (imap pair headers).

Definition truthy (h : jsstring) : bool :=
  match h with [] => false | _ :: _ => true end.

Definition analyzeColumns (csvText : jsstring) : list ColumnInfo :=
  match split nl (trim csvText) with
  | [] => []
  | first :: rest =>
      let headers := parseLine first in
      let rows := take 50 rest in
      if bool_decide (length headers = 0)
         || (bool_decide (length headers = 1) && bool_decide (headers !! 0 = Some []))
      then []
      else
        let parsedRows := map parseLine rows in
        let columnTypes : gmap jsstring (list CellType) :=
          foldl (fun m h => if truthy h then <[h := []]> m else m) ∅ headers in
        let st := foldl (visitRow headers) (columnTypes, ∅) parsedRows in
        map (fun header =>
               {| name := header;
                  type := finalType (default [] (st.1 !! header));
                  hasMissingValues := bool_decide (header ∈ st.2) |})
            (List.filter truthy headers)
  end.

(** The invariant of the two loops: no set of classifications has a
    repetition. *)
Definition scan_ok (st : scan) : Prop :=
  map_Forall (fun _ types => NoDup types) st.1.

End Sampling.

(** ** [JSON.parse]

    The values of JSON and a parser of the JSON grammar.  A string value is a
    list of code units (an escape may name any code unit of 16 bits); a
    repeated key of an object keeps its place and takes the later value. *)

Module JSON.

Inductive value :=
  | Null
  | Bool (b : bool)
  | Num (n : number)
  | Str (s : list N)
  | Arr (l : list value)
  | Obj (l : list (list N * value)).

Definition is_space (c : ascii) : bool :=
  existsb (N.eqb (N_of_ascii c)) [9; 10; 13; 32]%N.

Fixpoint skip_ws (s : jsstring) : jsstring :=
  match s with
  | c :: t => if is_space c then skip_ws t else s
  | [] => []
  end.

Definition hex4 (a b c d : ascii) : option N :=
  match digit_in 16 a, digit_in 16 b, digit_in 16 c, digit_in 16 d with
  | Some x, Some y, Some z, Some w => Some (Z.to_N (((x * 16 + y) * 16 + z) * 16 + w))
  | _, _, _, _ => None
  end.

Definition escape (e : ascii) : option N :=
  if Ascii.eqb e dquote then Some 34%N
  else match e with
       | "\"%char => Some 92%N
       | "/"%char => Some 47%N
       | "b"%char => Some 8%N
       | "f"%char => Some 12%N
       | "n"%char => Some 10%N
       | "r"%char => Some 13%N
       | "t"%char => Some 9%N
       | _ => None
       end.

(** The text of a string after its opening quote. *)
Fixpoint string_body (s : jsstring) : option (list N * jsstring) :=
  match s with
  | [] => None
  | c :: t =>
      if Ascii.eqb c dquote then Some ([], t)
      else if Ascii.eqb c "\"%char then
        match t with
        | "u"%char :: h1 :: h2 :: h3 :: h4 :: t' =>
            match hex4 h1 h2 h3 h4, string_body t' with
            | Some u, Some (r, rest) => Some (u :: r, rest)
            | _, _ => None
            end
        | e :: t' =>
            match escape e, string_body t' with
            | Some u, Some (r, rest) => Some (u :: r, rest)
            | _, _ => None
            end
        | [] => None
        end
      else if (N_of_ascii c <? 32)%N then None
      else match string_body t with
           | Some (r, rest) => Some (N_of_ascii c :: r, rest)
           | None => None
           end
  end.

(** A number: a minus sign if any, an integer part without a leading zero,
    a fraction and an exponent if any. *)
Definition number_literal (s : jsstring) : option (number * jsstring) :=
  let '(neg, u) :=
    match s with
    | "-"%char :: t => (true, t)
    | _ => (false, s)
    end in
  let '(d1, r1) := span_digits u in
  let int_ok :=
    match d1 with
    | [] => false
    | ["0"%char] => true
    | c :: _ => negb (Ascii.eqb c "0"%char)
    end in
  if negb int_ok then None
  else
    let frac :=
      match r1 with
      | "."%char :: r =>
          match span_digits r with
          | ((_ :: _) as d2, r2) => Some (d2, r2)
          | _ => None
          end
      | _ => Some ([], r1)
      end in
    match frac with
    | None => None
    | Some (d2, r2) =>
        let expo :=
          match r2 with
          | c :: t =>
              if Ascii.eqb (lower c) "e"%char then
                let '(eneg, t') :=
                  match t with
                  | "-"%char :: v => (true, v)
                  | "+"%char :: v => (false, v)
                  | _ => (false, t)
                  end in
                match span_digits t' with
                | ((_ :: _) as d3, r3) =>
                    Some ((if eneg then - digits_value d3 else digits_value d3)%Z, r3)
                | _ => None
                end
              else Some (0%Z, r2)
          | [] => Some (0%Z, r2)
          end in
        match expo with
        | None => None
        | Some (e, r3) =>
            Some (decimal neg (digits_value (d1 ++ d2)) (e - Z.of_nat (length d2)), r3)
        end
    end.

Fixpoint set_member (k : list N) (v : value) (l : list (list N * value))
    : list (list N * value) :=
  match l with
  | [] => [(k, v)]
  | (k', v') :: r => if bool_decide (k' = k) then (k, v) :: r else (k', v') :: set_member k v r
  end.

Fixpoint parse_value (fuel : nat) (s : jsstring) : option (value * jsstring) :=
  match fuel with
  | 0 => None
  | S f =>
      match skip_ws s with
      | "{"%char :: t =>
          match skip_ws t with
          | "}"%char :: r => Some (Obj [], r)
          | _ => parse_members f [] t
          end
      | "["%char :: t =>
          match skip_ws t with
          | "]"%char :: r => Some (Arr [], r)
          | _ => parse_elements f [] t
          end
      | "t"%char :: "r"%char :: "u"%char :: "e"%char :: r => Some (Bool true, r)
      | "f"%char :: "a"%char :: "l"%char :: "s"%char :: "e"%char :: r => Some (Bool false, r)
      | "n"%char :: "u"%char :: "l"%char :: "l"%char :: r => Some (Null, r)
      | c :: t =>
          if Ascii.eqb c dquote then
            match string_body t with
            | Some (u, r) => Some (Str u, r)
            | None => None
            end
          else match number_literal (c :: t) with
               | Some (n, r) => Some (Num n, r)
               | None => None
               end
      | [] => None
      end
  end
with parse_elements (fuel : nat) (acc : list value) (s : jsstring)
    : option (value * jsstring) :=
  match fuel with
  | 0 => None
  | S f =>
      match parse_value f s with
      | Some (v, r) =>
          match skip_ws r with
          | ","%char :: r' => parse_elements f (acc ++ [v]) r'
          | "]"%char :: r' => Some (Arr (acc ++ [v]), r')
          | _ => None
          end
      | None => None
      end
  end
with parse_members (fuel : nat) (acc : list (list N * value)) (s : jsstring)
    : option (value * jsstring) :=
  match fuel with
  | 0 => None
  | S f =>
      match skip_ws s with
      | c :: t =>
          if Ascii.eqb c dquote then
            match string_body t with
            | Some (k, r) =>
                match skip_ws r with
                | ":"%char :: r' =>
                    match parse_value f r' with
                    | Some (v, r'') =>
                        match skip_ws r'' with
                        | ","%char :: u => parse_members f (set_member k v acc) u
                        | "}"%char :: u => Some (Obj (set_member k v acc), u)
                        | _ => None
                        end
                    | None => None
                    end
                | _ => None
                end
            | None => None
            end
          else None
      | [] => None
      end
  end.

(** [JSON.parse(s)]; [None] stands for the [SyntaxError] it throws.  Every
    call of the parser follows a code unit of its own, so twice the length
    is fuel enough. *)
Definition parse (s : jsstring) : option value :=
  match parse_value (2 * length s + 2) s with
  | Some (v, r) => match skip_ws r with [] => Some v | _ => None end
  | None => None
  end.

(** The truth value of a parsed value, as [v || undefined] tests it. *)
Definition truthy (v : value) : bool :=
  match v with
  | Null => false
  | Bool b => b
  | Num n => match n with S754_zero _ | S754_nan => false | _ => true end
  | Str s => match s with [] => false | _ => true end
  | Arr _ | Obj _ => true
  end.

End JSON.

(** ** [src/App.tsx]: the response handler *)

Inductive Sender := user | ai | system.

Module Message.
Record t := mk
  { sender : Sender; text : jsstring; chartData : option JSON.value }.
End Message.

Module UploadedFile.
Record t := mk { name : jsstring; columns : list ColumnInfo.t }.
End UploadedFile.

(** The state of the component that the handler reads and writes.  The
  identifier of a message is the time of the clock and is left out. *)
Record AppState := mkState
  { messages : list Message.t;
  isLoading : bool;
  uploadedFile : option UploadedFile.t;
  csvData : option jsstring }.

Definition addMessage (m : Message.t) (st : AppState) : AppState :=
  mkState (messages st ++ [m]) (isLoading st) (uploadedFile st) (csvData st).
Definition setIsLoading (b : bool) (st : AppState) : AppState :=
  mkState (messages st) b (uploadedFile st) (csvData st).
Definition setCsvData (d : option jsstring) (st : AppState) : AppState :=
  mkState (messages st) (isLoading st) (uploadedFile st) d.
Definition setUploadedFile (f : option UploadedFile.t) (st : AppState) : AppState :=
  mkState (messages st) (isLoading st) f (csvData st).

(** The two patterns: three backticks, the tag and a line feed; the shortest
    text up to a line feed and three backticks.  The match starts at the
    first opening that a closing follows; a later opening has a closing after
    it only if the first one has. *)
Definition fence_open (tag : jsstring) : jsstring := str "```" ++ tag ++ [nl].
Definition fence_close : jsstring := nl :: str "```".

Definition json_tag : jsstring := str "json".
Definition csv_tag : jsstring := str "csv".

(** [text.match(re)]: the text before the match, the group and the text
    after the match. *)
Definition regex_match (tag text : jsstring) : option (jsstring * jsstring * jsstring) :=
  match find_sub (fence_open tag) text with
  | Some (before, rest) =>
      match find_sub fence_close rest with
      | Some (body, after) => Some (before, body, after)
      | None => None
      end
  | None => None
  end.

(** [text.replace(re, '')] *)
Definition regex_remove (tag text : jsstring) : jsstring :=
  match regex_match tag text with
  | Some (before, _, after) => before ++ after
  | None => text
  end.

(** The group of a match when the match is there and the group is not the
    empty text: the test [m && m[1]]. *)
Definition group1 (m : option (jsstring * jsstring * jsstring)) : option jsstring :=
  match m with
  | Some (_, (_ :: _) as body, _) => Some body
  | _ => None
  end.

(** What the handler takes out of a response. *)
Record Extraction := mkExtraction
  { responseText : jsstring;
    chartData : option JSON.value;
    newCsvData : option jsstring }.

Definition updatedNotice : jsstring :=
  str "Dataset has been updated. Column analysis is refreshed.".
Definition errorNotice : jsstring :=
  str "Sorry, I encountered an error. Please check your API key and try again.".

Section Handler.

(** The call of the text generation service ([None]: the call fails) and
    [JSON.parse] ([None]: it throws). *)
Variable analyzeDataWithGemini :
  jsstring -> list ColumnInfo.t -> option jsstring -> option jsstring.
Variable JSON_parse : jsstring -> option JSON.value.

(** The part of [handleSend] that reads the response: the two matches are
    taken on the response as it came; the CSV block is cut first, the JSON
    block is cut from what is left and only once it has parsed. *)
Definition extract (aiResponse : jsstring) : Extraction :=
  let chartMatch := regex_match json_tag aiResponse in
  let csvMatch := regex_match csv_tag aiResponse in
  let '(responseText1, newCsvData) :=
    match group1 csvMatch with
    | Some body => (trim (regex_remove csv_tag aiResponse), Some (trim body))
    | None => (aiResponse, None)
    end in
  let '(chartData, responseText2) :=
    match group1 chartMatch with
    | Some body =>
        match JSON_parse body with
        | Some v => (Some v, trim (regex_remove json_tag responseText1))
        | None => (None, responseText1)
        end
    | None => (None, responseText1)
    end in
  mkExtraction responseText2 chartData newCsvData.

(** [chartData || undefined] *)
Definition orUndefined (c : option JSON.value) : option JSON.value :=
  match c with
  | Some v => if JSON.truthy v then Some v else None
  | None => None
  end.

(** The body of the [try] once the response is there.  The new column list
    is stored under the name of the file in the state; with no file there
    the update reads the name of [null], which stops the rendering: [None]. *)
Definition respond (st : AppState) (aiResponse : jsstring) : option AppState :=
  let e := extract aiResponse in
  let ai_message := Message.mk ai (responseText e) (orUndefined (chartData e)) in
  match newCsvData e with
  | Some newCsv =>
      match uploadedFile st with
      | Some prev =>
          let newColumns := analyzeColumns newCsv in
          let st1 := setCsvData (Some newCsv) st in
          let st2 :=
            setUploadedFile
              (Some (UploadedFile.mk (UploadedFile.name prev) newColumns)) st1 in
          let st3 := addMessage (Message.mk system updatedNotice None) st2 in
          Some (addMessage ai_message st3)
      | None => None
      end
  | None => Some (addMessage ai_message st)
  end.

Definition handleSend (st : AppState) (text : jsstring) : option AppState :=
  if isLoading st || negb (nonblank text) then Some st
  else
    let st1 := setIsLoading true (addMessage (Message.mk user text None) st) in
    let columns :=
      match uploadedFile st with
      | Some f => UploadedFile.columns f
      | None => []
      end in
    match analyzeDataWithGemini text columns (csvData st) with
    | Some aiResponse => setIsLoading false <$> respond st1 aiResponse
    | None => Some (setIsLoading false (addMessage (Message.mk ai errorNotice None) st1))
    end.

End Handler.

(** ** The cleaning of a cell as the specification words it

    Trim, then strip one leading and one trailing double quote when both are
    there; the quotes inside stay. *)

Definition strip_pair (t : jsstring) : jsstring :=
  match t with
  | c :: r =>
      match rev r with
      | d :: m => if Ascii.eqb c dquote && Ascii.eqb d dquote then rev m else t
      | [] => t
      end
  | [] => t
  end.

Definition clean_by_spec (cell : jsstring) : jsstring := strip_pair (trim cell).

(** ** Counting the cells of a column

    The cells a table has at a column index, and how many of them are not
    missing: the cells that get a classification. *)

Definition columnCells (rows : list (list jsstring)) (colIndex : nat) : list jsstring :=
  omap (fun row : list jsstring => row !! colIndex) rows.

Definition classified (rows : list (list jsstring)) (colIndex : nat) : nat :=
  length (List.filter nonblank (columnCells rows colIndex)).

(** The rows that reach a column index. *)
Definition reaching (rows : list (list jsstring)) (colIndex : nat) : list (list jsstring) :=
  List.filter (fun row : list jsstring => colIndex <? length row) rows.

(** The table with the cells beyond the width of the header removed. *)
Definition truncateRows (headers : list jsstring) (rows : list (list jsstring))
    : list (list jsstring) :=
  map (take (length headers)) rows.

(** ** The order of the comparator

    [above a b]: the comparator [(a, b) => a - b] is positive, so the sort
    puts [a] after [b]. *)

Definition above (a b : number) : bool := is_pos (sub a b).

(** The sum of the squared deviations, from the first one on, as
    [map] and [reduce] of the code take it. *)
Definition squaredDeviations (data : list number) (mean : number) : number :=
  reduce1 add (map (fun x => pow2 (sub x mean)) data).

(** ** Fenced blocks

    A text without a backtick, and the block a tag and a body make. *)

Definition plain (s : jsstring) : bool :=
  forallb (fun c => negb (Ascii.eqb c backtick)) s.

Definition fenced (tag body : jsstring) : jsstring :=
  fence_open tag ++ body ++ fence_close.

(** A pattern that does not overlap with itself: none of its proper suffixes
    that are not empty is a prefix of it. *)
Definition border_free (p : jsstring) : bool :=
  forallb (fun d => negb (starts_with (drop d p) p)) (seq 1 (length p - 1)).

(** A result of [find_sub] further to the right, behind the text [x]. *)
Definition behind (x : jsstring) (r : option (jsstring * jsstring))
    : option (jsstring * jsstring) :=
  match r with
  | Some (a, b) => Some (x ++ a, b)
  | None => None
  end.

(** The two texts with one block of each kind, in the two orders. *)
Definition csv_then_json (x cb y jb z : jsstring) : jsstring :=
  x ++ fenced csv_tag cb ++ y ++ fenced json_tag jb ++ z.

Definition json_then_csv (x cb y jb z : jsstring) : jsstring :=
  x ++ fenced json_tag jb ++ y ++ fenced csv_tag cb ++ z.

(** ** Sample inputs *)

Definition csv_sample : jsstring :=
  str "a,b,c" ++ nl :: str "1,x,2" ++ nl :: str "3,,4.5" ++ nl :: str "2,y".

Definition response_sample : jsstring :=
  str "Here." ++ nl :: str "```csv" ++ nl :: str "a,b" ++ nl :: str "1,2" ++ nl
    :: str "```" ++ nl :: str "and" ++ nl :: str "```json" ++ nl :: str "{}" ++ nl
    :: str "```" ++ nl :: str "bye ".

(** A state with a dataset loaded, a reply whose CSV block the profiler
    cannot profile (one line), and a reply whose JSON block does not parse. *)
Definition dataset_before : jsstring := str "a,b" ++ nl :: str "1,2".

Definition state_before : AppState :=
  mkState [] false
    (Some (UploadedFile.mk (str "data.csv") (analyzeColumns dataset_before)))
    (Some dataset_before).

Definition reply_unusable : jsstring :=
  str "Cleaned." ++ nl :: fenced csv_tag (str "abc").

Definition reply_malformed : jsstring :=
  str "Chart:" ++ nl :: fenced json_tag (str "{oops") ++ nl :: str "Done.".

(** ** [src/App.tsx]: the texts of the messages *)

(** [a.join(sep)] *)
Fixpoint join (sep : jsstring) (l : list jsstring) : jsstring :=
  match l with
  | [] => []
  | x :: r =>
      match r with
      | [] => x
      | _ :: _ => x ++ sep ++ join sep r
      end
  end.

(** A key that is an array index: the decimal text, without a leading zero,
    of an integer up to 2^32 - 2. *)
Definition arrayIndex (key : jsstring) : option Z :=
  match key with
  | [] => None
  | c :: r =>
      if forallb is_digit key
         && (negb (Ascii.eqb c "0"%char) || bool_decide (r = []))
         && (digits_value key <=? 4294967294)%Z
      then Some (digits_value key)
      else None
  end.

Fixpoint insertIndexed {V} (e : Z * (jsstring * V)) (l : list (Z * (jsstring * V)))
    : list (Z * (jsstring * V)) :=
  match l with
  | [] => [e]
  | y :: t => if (e.1 <? y.1)%Z then e :: l else y :: insertIndexed e t
  end.

(** [Object.entries(o)] on a record kept in the order of insertion: the keys
    that are array indices come first, in ascending order, the other keys
    follow in the order of insertion. *)
Definition objectEntries {V} (o : list (jsstring * V)) : list (jsstring * V) :=
  let indexed :=
    omap (fun e : jsstring * V =>
            match arrayIndex e.1 with Some i => Some (i, e) | None => None end) o in
  map snd (foldl (fun acc e => insertIndexed e acc) [] indexed)
  ++ List.filter (fun e : jsstring * V =>
                    match arrayIndex e.1 with Some _ => false | None => true end) o.

(** [entries.sort(([, a], [, b]) => b - a)]: by count, the larger first; the
    sort is stable. *)
Fixpoint insertByCount (e : jsstring * nat) (l : list (jsstring * nat))
    : list (jsstring * nat) :=
  match l with
  | [] => [e]
  | y :: t => if y.2 <? e.2 then e :: l else y :: insertByCount e t
  end.

Definition sortByCount (l : list (jsstring * nat)) : list (jsstring * nat) :=
  foldl (fun acc e => insertByCount e acc) [] l.

Section Texts.

(** The text of a number in a template, [Number::toString] of the host. *)
Variable Number_toString : number -> jsstring.

(** The statistics of one column in [formatColumnAnalysis].  The code reads
    the payload by the type of the column: under the type Numeric a payload
    of counts has no mean, which prints as [undefined]; under another type a
    numeric payload has no counts and [Object.entries] throws ([None]). *)
Definition statsString (c : ColumnInfo.t) : option jsstring :=
  match ColumnInfo.stats c with
  | None => Some []
  | Some payload =>
      if bool_decide (ColumnInfo.type c = TNumeric) then
        let show (f : NumericStats.t -> number) : jsstring :=
          match payload with
          | SNumeric s => Number_toString (f s)
          | SCategorical _ => str "undefined"
          end in
        Some (str "Mean: " ++ show NumericStats.mean
              ++ str ", Median: " ++ show NumericStats.median
              ++ str ", StdDev: " ++ show NumericStats.stdDev
              ++ str ", Range: [" ++ show NumericStats.min
              ++ str ", " ++ show NumericStats.max ++ str "]")
      else
        match payload with
        | SCategorical s =>
            let topValues :=
              join (str ", ")
                (map (fun e : jsstring * nat => e.1 ++ str " (" ++ show_nat e.2 ++ str ")")
                     (take 3 (sortByCount (objectEntries (CategoricalStats.valueCounts s))))) in
            Some (show_nat (CategoricalStats.uniqueValues s)
                  ++ str " unique values. Top: " ++ topValues)
        | SNumeric _ => None
        end
  end.

Definition formatColumn (c : ColumnInfo.t) : option jsstring :=
  match statsString c with
  | Some statsText =>
      let missingString :=
        if ColumnInfo.hasMissingValues c
        then str " (" ++ show_nat (ColumnInfo.missingCount c) ++ str "/"
             ++ show_nat (ColumnInfo.totalRows c) ++ str " missing)"
        else [] in
      Some (str "*   **" ++ ColumnInfo.name c ++ str "** ("
            ++ type_label (ColumnInfo.type c) ++ str ")" ++ missingString
            ++ str ": " ++ statsText)
  | None => None
  end.

Definition formatColumnAnalysis (columns : list ColumnInfo.t) : option jsstring :=
  join [nl] <$> mapM formatColumn columns.

End Texts.

Definition MAX_ISSUES_TO_SHOW : nat := 5.

(** The line of one issue in [formatValidationIssues]; an issue without a
    column prints [undefined] there. *)
Definition issueLine (issue : ValidationIssue.t) : jsstring :=
  match ValidationIssue.type issue with
  | MIXED_DATA_TYPE =>
      str "*   **Mixed Data Type** in column `"
      ++ default (str "undefined") (ValidationIssue.column issue)
      ++ str "` (Row " ++ show_nat (ValidationIssue.row issue) ++ str "): "
      ++ ValidationIssue.message issue
  | INCONSISTENT_ROW_LENGTH =>
      str "*   **Inconsistent Row Length** at Row "
      ++ show_nat (ValidationIssue.row issue) ++ str ": "
      ++ ValidationIssue.message issue
  end.

Definition issueSummary (issues : list ValidationIssue.t) : jsstring :=
  join [nl] (map issueLine (take MAX_ISSUES_TO_SHOW issues)).

Definition moreIssuesMessage (issues : list ValidationIssue.t) : jsstring :=
  if MAX_ISSUES_TO_SHOW <? length issues
  then nl :: str "...and " ++ show_nat (length issues - MAX_ISSUES_TO_SHOW)
       ++ str " more issues."
  else [].

Definition formatValidationIssues (issues : list ValidationIssue.t) : jsstring :=
  nl :: str "**Data Validation Failed**" ++ nl :: nl
  :: str "I found some integrity issues in your CSV file that need to be fixed before I can proceed with the analysis. Please correct them and upload the file again."
  ++ nl :: nl :: str "Here are the first few issues I found:" ++ nl
  :: issueSummary issues ++ nl :: moreIssuesMessage issues ++ nl :: str "    ".

(** ** [src/App.tsx]: the upload handler *)

Definition readFailedNotice : jsstring := str "Failed to read the uploaded file.".
Definition tooShortNotice : jsstring :=
  str "The CSV file must contain a header and at least one row of data.".
Definition noColumnsNotice (fileName : jsstring) : jsstring :=
  str "Could not parse columns from " ++ dquote :: fileName ++ dquote
  :: str ". Please ensure it is a valid, comma-separated CSV file.".

Definition suggestionText (columnsWithMissing : list ColumnInfo.t) : jsstring :=
  let columnNames :=
    join (str ", ")
      (map (fun c => backtick :: ColumnInfo.name c ++ [backtick]) columnsWithMissing) in
  nl :: str "**Data Quality Suggestion: Missing Values Detected**" ++ nl :: nl
  :: str "I found missing values in the column(s): " ++ columnNames ++ str "."
  ++ nl :: nl :: str "Please use the **" ++ dquote :: str "Data Studio" ++ dquote
  :: str "** panel's **" ++ dquote :: str "Missing Values" ++ dquote
  :: str "** tab to choose a cleaning strategy for each column." ++ nl
  :: str "        ".

Definition uploadedNotice (fileName analysisText : jsstring) : jsstring :=
  str "Successfully uploaded **" ++ fileName
  ++ str "**. Here's a detailed column analysis:" ++ nl :: nl :: analysisText.

Definition askNotice (fileName : jsstring) : jsstring :=
  str "What would you like to know about **" ++ fileName
  ++ str "**? You can ask a question or use the Data Studio to clean the file.".

Section Upload.

Variable Number_toString : number -> jsstring.

(** The callback [reader.onload] of [handleFileUpload], on the name of the
    file and the text read from it.  [None]: the callback throws. *)
Definition handleFileUpload (fileName text : jsstring) (st : AppState)
    : option AppState :=
  match text with
  | [] => Some (addMessage (Message.mk system readFailedNotice None) st)
  | _ :: _ =>
      match parseTable text with
      | None => Some (addMessage (Message.mk system tooShortNotice None) st)
      | Some (headers, rows) =>
          let columns := analyzeColumns text in
          if bool_decide (length columns = 0) then
            Some (setCsvData None
                    (addMessage (Message.mk system (noColumnsNotice fileName) None) st))
          else
            let validationIssues := validateCsvData headers rows columns in
            if 0 <? length validationIssues then
              Some (setCsvData None
                      (setUploadedFile None
                         (addMessage
                            (Message.mk ai (formatValidationIssues validationIssues) None)
                            st)))
            else
              match formatColumnAnalysis Number_toString columns with
              | None => None
              | Some analysisText =>
                  let st1 :=
                    setUploadedFile (Some (UploadedFile.mk fileName columns))
                      (setCsvData (Some text) st) in
                  let st2 :=
                    addMessage (Message.mk ai (uploadedNotice fileName analysisText) None)
                      st1 in
                  let columnsWithMissing :=
                    List.filter ColumnInfo.hasMissingValues columns in
                  let st3 :=
                    if 0 <? length columnsWithMissing
                    then addMessage
                           (Message.mk ai (suggestionText columnsWithMissing) None) st2
                    else st2 in
                  Some (addMessage (Message.mk ai (askNotice fileName) None) st3)
              end
      end
  end.

End Upload.

(** ** [src/services/geminiService.ts]: the prompt *)

(** [fullPrompt] of [analyzeDataWithGemini]: with a dataset that is there and
    not the empty text, the query is followed by the dataset in a CSV
    fence. *)
Definition datasetIntro : jsstring :=
  nl :: nl :: str "Here is the full dataset to perform the operation on:" ++ [nl].

Definition fullPrompt (userQuery : jsstring) (csvData : option jsstring) : jsstring :=
  match csvData with
  | Some ((_ :: _) as data) =>
      userQuery ++ datasetIntro ++ str "```csv" ++ nl :: data ++ nl :: str "```"
  | _ => userQuery
  end.

(** ** The states the handlers reach *)

Definition initialState : AppState :=
  mkState
    [Message.mk ai
       (str "Hello! I am your conversational data analysis assistant. Please upload a CSV file to begin.")
       None]
    false None None.

(** The stored profiles are the profiles of the stored dataset, and a
    dataset is stored exactly when a file is. *)
Definition coherent (st : AppState) : Prop :=
  match csvData st, uploadedFile st with
  | Some data, Some file => UploadedFile.columns file = analyzeColumns data
  | None, None => True
  | _, _ => False
  end.

(** The three moments of [handleSend]: the part before the call of the
    service, and, once the call has returned, the part for an answer and the
    part for a failure.  The later parts write through the setters, so they
    act on the state of their own moment. *)
Definition sendStart (st : AppState) (text : jsstring) : AppState :=
  setIsLoading true (addMessage (Message.mk user text None) st).

Definition sendAnswer (JSON_parse : jsstring -> option JSON.value)
    (st : AppState) (aiResponse : jsstring) : option AppState :=
  setIsLoading false <$> respond JSON_parse st aiResponse.

Definition sendFailure (st : AppState) : AppState :=
  setIsLoading false (addMessage (Message.mk ai errorNotice None) st).

(** One event of the component: an upload that is read, a message sent, an
    answer of the service that arrives, a call of the service that fails.
    Between the sending and the answer any other event may happen. *)
Inductive step (Number_toString : number -> jsstring) : AppState -> AppState -> Prop :=
  | step_upload fileName text st st' :
      handleFileUpload Number_toString fileName text st = Some st' ->
      step Number_toString st st'
  | step_send text st :
      isLoading st = false -> nonblank text = true ->
      step Number_toString st (sendStart st text)
  | step_answer parse aiResponse st st' :
      sendAnswer parse st aiResponse = Some st' ->
      step Number_toString st st'
  | step_failure st :
      step Number_toString st (sendFailure st).

(** The names every object inherits: a cell with one of them is counted by
    [getCategoricalStats] in another way than the record of counts here. *)
Definition inheritedNames : list jsstring :=
  [str "constructor"; str "__proto__"; str "toString"; str "toLocaleString";
   str "valueOf"; str "hasOwnProperty"; str "isPrototypeOf";
   str "propertyIsEnumerable"; str "__defineGetter__"; str "__defineSetter__";
   str "__lookupGetter__"; str "__lookupSetter__"].

(** The count of a value in a record of counts. *)
Fixpoint countOf (val : jsstring) (counts : list (jsstring * nat)) : option nat :=
  match counts with
  | [] => None
  | (k, n) :: r => if eqb_str k val then Some n else countOf val r
  end.

(** The number of occurrences of a value in a list. *)
Definition occurrences (val : jsstring) (data : list jsstring) : nat :=
  length (List.filter (fun v => eqb_str v val) data).

(** The names of the columns of the type Numeric, [numericColumns] of
    [validateCsvData]. *)
Definition numericColumnNames (columnInfo : list ColumnInfo.t) : list jsstring :=
  map ColumnInfo.name
    (List.filter (fun c => bool_decide (ColumnInfo.type c = TNumeric)) columnInfo).

(** A cell that the check of the mixed types reports: under a header that
    names a numeric column, not blank and not numeric. *)
Definition offending (headers numericColumns : list jsstring) (row : list jsstring)
    (j : nat) (header cell : jsstring) : Prop :=
  row !! j = Some cell /\ headers !! j = Some header
  /\ header ∈ numericColumns /\ nonblank cell = true /\ isNumeric cell = false.

(** Sample states: after the upload of the sample table, after a message
    is sent, and after the sample response has arrived. *)
Definition csv_regular : jsstring :=
  str "n,w" ++ nl :: str "1,x" ++ nl :: str "2.5," ++ nl :: str "4,y".

Definition state_uploaded : AppState :=
  Eval vm_compute in
    default initialState
      (handleFileUpload (fun _ => str "?") (str "d.csv") csv_regular initialState).

Definition state_answered : AppState :=
  Eval vm_compute in
    default initialState
      (sendAnswer JSON.parse (sendStart state_uploaded (str "clean")) response_sample).

(* ================================================================== *)
(** * Properties *)

(** ** Sanity checks of the embedding *)

Example split_ex : split comma (str "a,,b") = [str "a"; []; str "b"].
Proof. reflexivity. Qed.

Example split_empty : split comma [] = [[]].
Proof. reflexivity. Qed.

Example trim_ex : trim (str "  a b  ") = str "a b".
Proof. reflexivity. Qed.

Example find_sub_ex : find_sub (str "bc") (str "abcbc") = Some (str "a", str "bc").
Proof. reflexivity. Qed.

Example Number_ex : Number (str " 12.5 ") = S754_finite false 7036874417766400 (-49).
Proof. vm_compute. reflexivity. Qed.

Example Number_forms :
  map Number [str "1e3"; str "1.5E-1"; str "0x1f"; str "+.5"]
  = map Number [str "1000"; str "0.15"; str "31"; str "0.5"].
Proof. vm_compute. reflexivity. Qed.

Example isNaN_Number_ex :
  map (fun s => isNaN (Number s))
    [str "1e3"; str ".5"; str "5."; str "."; str "0x1F"; str "-0x1F"; str "abc";
     str "1,2"; str "-Infinity"; str "infinity"; str "1e"; str "+.5e-3";
     str "0b102"; []; str "1 2"]
  = [false; false; false; true; false; true; true;
     true; false; true; true; false;
     true; false; true].
Proof. vm_compute. reflexivity. Qed.

Example toFixed2_ex :
  map toFixed2
    [Number (str "1.234"); Number (str "1.005"); Number (str "-0.001");
     Number (str "2.5"); Number (str "1e21"); Number (str "0.125")]
  = [Number (str "1.23"); Number (str "1"); Number (str "-0");
     Number (str "2.5"); Number (str "1e21"); Number (str "0.13")].
Proof. vm_compute. reflexivity. Qed.

(** The example of the specification: the statistics of 1, 2, 3, 4. *)
Example getNumericStats_1234 :
  getNumericStats (map Number [str "1"; str "2"; str "3"; str "4"])
  = NumericStats.mk (Number (str "2.5")) (Number (str "2.5")) (Number (str "1.12"))
      (Number (str "1")) (Number (str "4")).
Proof. vm_compute. reflexivity. Qed.

Example analyzeColumns_ex :
  map (fun c => (ColumnInfo.type c, ColumnInfo.totalRows c, ColumnInfo.missingCount c))
    (analyzeColumns csv_sample)
  = [(TNumeric, 3, 0); (TBoolean, 3, 1); (TNumeric, 3, 0)].
Proof. vm_compute. reflexivity. Qed.

Example Sampling_analyzeColumns_ex :
  map (fun c => (Sampling.type c, Sampling.hasMissingValues c))
    (Sampling.analyzeColumns
       (str "a,b,c,d" ++ nl :: str "1,x,2," ++ nl :: str "3,,4.5," ++ nl :: str "2,7"))
  = [(TNumeric, false); (TStringMixed, true); (TNumeric, true); (TEmpty, true)].
Proof. vm_compute. reflexivity. Qed.

Example JSON_parse_rejects :
  map JSON.parse
    [str "{oops"; []; str "01"; str "[1,]"; str "1 2"; str "tru"; str "-";
     str "1."; str "'a'"; str "[1 2]"]
  = repeat None 10.
Proof. vm_compute. reflexivity. Qed.

Example JSON_parse_accepts :
  map (fun s => bool_decide (is_Some (JSON.parse s)))
    [str "0"; str " [ ] "; str "-0.5e+3"; str "[[[[1]]]]"; str "{}";
     str "[1,2,3,4,5,6,7,8,9,10,11,12]";
     str "{" ++ dquote :: str "a" ++ dquote :: str ": [1, {}, null]}"]
  = repeat true 7.
Proof. vm_compute. reflexivity. Qed.

Example extract_ex :
  extract JSON.parse response_sample
  = mkExtraction (str "Here." ++ nl :: nl :: str "and" ++ nl :: nl :: str "bye")
      (Some (JSON.Obj [])) (Some (str "a,b" ++ nl :: str "1,2")).
Proof. vm_compute. reflexivity. Qed.

(** ** The cell parser (C5) *)

Section Cleaning.

Lemma remove_dquotes_app (a b : jsstring) :
  remove_dquotes (a ++ b) = remove_dquotes a ++ remove_dquotes b.
Proof. apply List.filter_app. Qed.

Lemma remove_dquotes_free (s : jsstring) : dquote ∉ remove_dquotes s.
Proof.
  intros Hin. apply list_elem_of_In, List.filter_In in Hin.
  destruct Hin as [_ Hne]. by rewrite Ascii.eqb_refl in Hne.
Qed.

Lemma remove_dquotes_id (s : jsstring) : dquote ∉ s -> remove_dquotes s = s.
Proof.
  induction s as [|c s IH]; intros Hs; [done|].
  apply not_elem_of_cons in Hs as [Hc Hs]. unfold remove_dquotes in *. simpl.
  destruct (Ascii.eqb_spec c dquote) as [->|_]; [done|]. simpl. by rewrite IH.
Qed.

Lemma remove_dquotes_strip_pair (t : jsstring) :
  remove_dquotes (strip_pair t) = remove_dquotes t.
Proof.
  destruct t as [|c r]; [done|]. unfold strip_pair.
  destruct (rev r) as [|d m] eqn:Hr; [done|].
  destruct (Ascii.eqb_spec c dquote) as [->|_]; [|done].
  destruct (Ascii.eqb_spec d dquote) as [->|_]; [|done]. simpl.
  assert (r = rev m ++ [dquote]) as ->.
  { rewrite <- (rev_involutive r), Hr. done. }
  change (dquote :: rev m ++ [dquote]) with ([dquote] ++ rev m ++ [dquote]).
  rewrite !remove_dquotes_app. simpl. by rewrite app_nil_r.
Qed.

End Cleaning.

(** C5, as the specification states it, fails: a double quote inside a cell
    is removed by the parser, and the stripping of one pair would keep it. *)
Lemma clean_inner_quote_counterexample :
  let cell := str "a" ++ dquote :: str "b" in
  clean cell = str "ab" /\ clean_by_spec cell = cell /\ clean cell <> clean_by_spec cell.
Proof. vm_compute. repeat split; congruence. Qed.

(** C5, amended: for every header and cell the parser trims the surrounding
    white space and then removes every double quote, the inner ones too.  The
    result has no double quote; it is the reading of the specification (one
    leading and one trailing quote stripped) with the quotes left in it
    removed, and the two agree exactly when that reading has no quote left. *)
Theorem clean_removes_every_dquote (cell : jsstring) :
  (dquote ∉ clean cell)
  /\ clean cell = remove_dquotes (clean_by_spec cell)
  /\ (clean cell = clean_by_spec cell <-> dquote ∉ clean_by_spec cell).
Proof.
  assert (Heq : clean cell = remove_dquotes (clean_by_spec cell)).
  { unfold clean, clean_by_spec. by rewrite remove_dquotes_strip_pair. }
  split; [apply remove_dquotes_free|]. split; [exact Heq|]. split.
  - intros <-. apply remove_dquotes_free.
  - intros Hfree. rewrite Heq. by apply remove_dquotes_id.
Qed.


(** ** The profiler (C3, C4, C10) *)

Section Profiler.

Lemma profile_lookup (headers : list jsstring) rows i c :
  profile headers rows !! i = Some c ->
  exists header, headers !! i = Some header /\ c = profileColumn rows i header.
Proof.
  unfold profile. rewrite list_lookup_imap.
  destruct (headers !! i) as [h|]; simpl; [|done].
  intros [= <-]. by exists h.
Qed.

Lemma analyzeColumns_profile (csvText : jsstring) headers rows :
  parseTable csvText = Some (headers, rows) ->
  analyzeColumns csvText = profile headers rows.
Proof. intros H. unfold analyzeColumns. by rewrite H. Qed.

Lemma profileColumn_missingCount rows i header :
  ColumnInfo.missingCount (profileColumn rows i header)
  = length (columnCells rows i) - classified rows i.
Proof. unfold profileColumn. by destruct (_ && _). Qed.

Lemma profileColumn_totalRows rows i header :
  ColumnInfo.totalRows (profileColumn rows i header) = length rows.
Proof. unfold profileColumn. by destruct (_ && _). Qed.

Lemma filter_length_le {A} (f : A -> bool) (l : list A) :
  length (List.filter f l) <= length l.
Proof. induction l as [|x l IH]; simpl; [lia|]. destruct (f x); simpl; lia. Qed.

Lemma columnCells_reaching (rows : list (list jsstring)) i :
  length (columnCells rows i) = length (reaching rows i).
Proof.
  unfold columnCells, reaching.
  induction rows as [|row rows IH]; [done|]. simpl.
  destruct (row !! i) as [v|] eqn:Hv; simpl.
  - apply lookup_lt_Some in Hv. apply Nat.ltb_lt in Hv. rewrite Hv. simpl.
    f_equal. exact IH.
  - apply lookup_ge_None in Hv.
    destruct (i <? length row) eqn:Hlt; [apply Nat.ltb_lt in Hlt; lia|]. exact IH.
Qed.

Lemma reaching_all (rows : list (list jsstring)) i :
  Forall (fun row : list jsstring => i < length row) rows -> reaching rows i = rows.
Proof.
  unfold reaching. induction 1 as [|row rows Hrow _ IH]; [done|]. simpl.
  apply Nat.ltb_lt in Hrow. rewrite Hrow. by rewrite IH.
Qed.

Lemma columnCells_truncate headers (rows : list (list jsstring)) i :
  i < length headers ->
  columnCells (truncateRows headers rows) i = columnCells rows i.
Proof.
  intros Hi. unfold columnCells, truncateRows.
  induction rows as [|row rows IH]; [done|]. simpl.
  rewrite lookup_take_lt by done.
  destruct (row !! i); [f_equal|]; exact IH.
Qed.

Lemma filter_all_false {A} (f : A -> bool) (l : list A) :
  Forall (fun x => f x = false) l -> List.filter f l = [].
Proof. induction 1 as [|x l Hx _ IH]; [done|]. simpl. by rewrite Hx. Qed.

End Profiler.

(** C3, as the specification states it, fails when a row is shorter than the
    header: the row has no cell in the last column, the cell is counted
    neither as missing nor as classified, and the row still counts in
    [totalRows]. *)
Lemma missingCount_short_row_counterexample :
  let text := str "a,b" ++ nl :: str "1" in
  exists headers rows c,
    parseTable text = Some (headers, rows)
    /\ analyzeColumns text !! 1 = Some c
    /\ ColumnInfo.missingCount c = 0 /\ classified rows 1 = 0
    /\ ColumnInfo.totalRows c = 1
    /\ ColumnInfo.missingCount c + classified rows 1 <> ColumnInfo.totalRows c.
Proof.
  eexists _, _, _. split; [vm_compute; reflexivity|].
  split; [vm_compute; reflexivity|]. vm_compute. repeat split; lia.
Qed.

(** C3, amended: for every table and every column profile, [missingCount]
    plus the number of classified (not missing) cells of the column is the
    number of rows that have a cell at the index of the column.  That number
    is at most [totalRows], so [missingCount] is at most [totalRows], and it is
    [totalRows] as soon as every row reaches the column. *)
Theorem missingCount_plus_classified (headers : list jsstring)
    (rows : list (list jsstring)) (i : nat) (c : ColumnInfo.t) :
  profile headers rows !! i = Some c ->
  ColumnInfo.missingCount c + classified rows i = length (reaching rows i)
  /\ length (reaching rows i) <= ColumnInfo.totalRows c
  /\ ColumnInfo.missingCount c <= ColumnInfo.totalRows c
  /\ (Forall (fun row : list jsstring => i < length row) rows ->
      ColumnInfo.missingCount c + classified rows i = ColumnInfo.totalRows c).
Proof.
  intros (header & _ & ->)%profile_lookup.
  rewrite profileColumn_missingCount, profileColumn_totalRows.
  pose proof (filter_length_le nonblank (columnCells rows i)) as Hle.
  fold (classified rows i) in Hle.
  pose proof (columnCells_reaching rows i) as Hreach.
  pose proof (filter_length_le (fun row : list jsstring => i <? length row) rows) as Hrows.
  fold (reaching rows i) in Hrows.
  repeat split; try lia.
  intros Hall. rewrite (reaching_all _ _ Hall) in Hreach. lia.
Qed.

Lemma missingCount_plus_classified_witness :
  let headers := [str "a"; str "b"] in
  let rows := [[str "1"; []]; [str "2"; str "x"]] in
  exists c, profile headers rows !! 1 = Some c
    /\ ColumnInfo.missingCount c + classified rows 1 = ColumnInfo.totalRows c.
Proof.
  eexists. split; [reflexivity|].
  refine (proj2 (proj2 (proj2
    (missingCount_plus_classified [str "a"; str "b"]
       [[str "1"; []]; [str "2"; str "x"]] 1 _ eq_refl))) _).
  repeat constructor.
Defined.

(** C4, as the specification states it, fails on the profiler of
    [src/App.tsx]: a column whose cells are all missing gets the type String,
    not Empty, and a statistics payload is there although the column has no
    value. *)
Lemma all_missing_column_counterexample :
  let text := str "a,b" ++ nl :: str "1," ++ nl :: str "2, " in
  exists headers rows c,
    parseTable text = Some (headers, rows)
    /\ analyzeColumns text !! 1 = Some c
    /\ classified rows 1 = 0
    /\ ColumnInfo.type c = TString
    /\ ColumnInfo.type c <> TEmpty
    /\ ColumnInfo.stats c = Some (SCategorical (CategoricalStats.mk [] 0))
    /\ ColumnInfo.stats c <> None.
Proof.
  eexists _, _, _. split; [vm_compute; reflexivity|].
  split; [vm_compute; reflexivity|]. vm_compute. repeat split; congruence.
Qed.

(** C4, amended: in the profiler of [src/App.tsx] every column has a
    statistics payload; for a column whose cells are all missing the type
    stays String and the payload is the categorical one with no value count
    and [uniqueValues] 0.  The type Empty exists only in the earlier sampling
    profiler, where the reduction of no classification gives it. *)
Theorem all_missing_column_profile (headers : list jsstring)
    (rows : list (list jsstring)) (i : nat) (c : ColumnInfo.t) :
  profile headers rows !! i = Some c ->
  is_Some (ColumnInfo.stats c)
  /\ (Forall (fun v => nonblank v = false) (columnCells rows i) ->
      ColumnInfo.type c = TString
      /\ ColumnInfo.missingCount c = length (reaching rows i)
      /\ ColumnInfo.stats c = Some (SCategorical (CategoricalStats.mk [] 0)))
  /\ Sampling.finalType [] = TEmpty.
Proof.
  intros (header & _ & ->)%profile_lookup. split; [|split; [|done]].
  - unfold profileColumn. by destruct (_ && _).
  - intros Hall. pose proof (filter_all_false _ _ Hall) as Hnone.
    rewrite profileColumn_missingCount. unfold classified.
    rewrite <- columnCells_reaching.
    unfold profileColumn. fold (columnCells rows i). rewrite Hnone. simpl.
    repeat split. lia.
Qed.

Lemma all_missing_column_profile_witness :
  let headers := [str "a"; str "b"] in
  let rows := [[str "1"; []]; [str "2"; str " "]] in
  exists c, profile headers rows !! 1 = Some c
    /\ ColumnInfo.type c = TString
    /\ ColumnInfo.stats c = Some (SCategorical (CategoricalStats.mk [] 0)).
Proof.
  eexists. split; [reflexivity|].
  destruct (all_missing_column_profile [str "a"; str "b"]
       [[str "1"; []]; [str "2"; str " "]] 1 _ eq_refl) as (_ & H & _).
  destruct H as (Ht & _ & Hs); [repeat constructor|]. split; [exact Ht|exact Hs].
Defined.

(** C10: the cells of a row beyond the width of the header have no effect on
    the profiles.  For every table, the profiling pass gives the same list of
    column profiles (name, type, counts and statistics) on the table and on
    the table with those cells removed. *)
Theorem profile_ignores_extra_cells (headers : list jsstring)
    (rows : list (list jsstring)) :
  profile headers (truncateRows headers rows) = profile headers rows.
Proof.
  unfold profile. apply imap_ext. intros i header Hi.
  apply lookup_lt_Some in Hi.
  unfold profileColumn. fold (columnCells (truncateRows headers rows) i).
  fold (columnCells rows i). rewrite columnCells_truncate by done.
  unfold truncateRows. by rewrite length_map.
Qed.

(** ** The validator (C7) *)

Section Validator.

Variables headers numericColumns : list jsstring.

(** Every issue a row adds carries the number of that row: its index plus
    two. *)
Lemma validateRow_row (rowIndex : nat) (row : list jsstring) :
  Forall (fun issue => ValidationIssue.row issue = rowIndex + 2)
    (validateRow headers numericColumns rowIndex row).
Proof.
  unfold validateRow. destruct (negb _); [by repeat constructor|].
  generalize (@id nat). intros g.
  assert (Hgen : forall (k : list jsstring) (f : nat -> nat),
    Forall (fun issue => ValidationIssue.row issue = rowIndex + 2)
      (concat (imap (fun colIndex cell =>
        match headers !! f colIndex with
        | Some header =>
            if bool_decide (header ∈ numericColumns) && nonblank cell
               && negb (isNumeric cell)
            then [mixedTypeIssue header rowIndex cell]
            else []
        | None => []
        end) k))).
  { induction k as [|cell k IH]; intros f; [constructor|].
    rewrite imap_cons. simpl. apply Forall_app. split.
    - destruct (headers !! f 0); [|constructor].
      destruct (_ && _); by repeat constructor.
    - apply (IH (f ∘ S)). }
  exact (Hgen row id).
Qed.

Lemma validateRow_short (rowIndex : nat) (row : list jsstring) :
  length row <> length headers ->
  validateRow headers numericColumns rowIndex row
  = [rowLengthIssue (length headers) rowIndex (length row)].
Proof.
  intros Hne. unfold validateRow.
  destruct (Nat.eqb_spec (length row) (length headers)); [done|]. done.
Qed.

(** The issues of the rows from the index [k] on, filtered by a row number. *)
Lemma issues_of_other_rows (n k : nat) (rows : list (list jsstring)) :
  n < k + 2 ->
  List.filter (fun issue => ValidationIssue.row issue =? n)
    (concat (imap (fun j => validateRow headers numericColumns (k + j)) rows)) = [].
Proof.
  revert k. induction rows as [|row rows IH]; intros k Hn; [done|].
  rewrite imap_cons. simpl. rewrite List.filter_app.
  rewrite (filter_all_false _ (validateRow _ _ _ row)).
  - simpl. rewrite <- (IH (S k)) by lia. f_equal. f_equal. apply imap_ext.
    intros j r _. simpl. f_equal. lia.
  - eapply Forall_impl; [apply validateRow_row|].
    intros issue ->. apply Nat.eqb_neq. lia.
Qed.

Lemma issues_of_row (k i : nat) (rows : list (list jsstring)) (row : list jsstring) :
  rows !! i = Some row ->
  List.filter (fun issue => ValidationIssue.row issue =? k + i + 2)
    (concat (imap (fun j => validateRow headers numericColumns (k + j)) rows))
  = validateRow headers numericColumns (k + i) row.
Proof.
  revert k i. induction rows as [|r rows IH]; intros k i Hi; [done|].
  rewrite imap_cons. simpl. rewrite List.filter_app.
  assert (Hshift : imap ((fun j => validateRow headers numericColumns (k + j)) ∘ S) rows
                   = imap (fun j => validateRow headers numericColumns (S k + j)) rows).
  { apply imap_ext. intros j x _. simpl. f_equal. lia. }
  rewrite Hshift. destruct i as [|i]; simpl in Hi.
  - injection Hi as ->. rewrite issues_of_other_rows by lia. rewrite app_nil_r.
    rewrite !Nat.add_0_r.
    pose proof (validateRow_row k row) as Hall.
    induction Hall as [|issue l Hrow _ IHl]; [done|]. simpl.
    rewrite Hrow, Nat.eqb_refl. by rewrite IHl.
  - rewrite (filter_all_false _ (validateRow _ _ _ r)).
    + simpl. replace (k + S i + 2) with (S k + i + 2) by lia.
      transitivity (validateRow headers numericColumns (S k + i) row);
        [exact (IH (S k) i Hi) | f_equal; lia].
    + eapply Forall_impl; [apply validateRow_row|].
      intros issue ->. apply Nat.eqb_neq. lia.
Qed.

End Validator.

(** C7: for every data row whose cell count differs from the header count,
    the issues of the validator that carry the number of that row (its index
    plus two: the header is row 1, the first data row is row 2) are exactly
    one issue, of the kind of the inconsistent row length; no issue of a mixed
    data type is there for the row. *)
Theorem validateCsvData_row_length (headers : list jsstring)
    (rows : list (list jsstring)) (columnInfo : list ColumnInfo.t)
    (i : nat) (row : list jsstring) :
  rows !! i = Some row ->
  length row <> length headers ->
  List.filter (fun issue => ValidationIssue.row issue =? i + 2)
    (validateCsvData headers rows columnInfo)
  = [rowLengthIssue (length headers) i (length row)]
  /\ ValidationIssue.type (rowLengthIssue (length headers) i (length row))
     = INCONSISTENT_ROW_LENGTH
  /\ ValidationIssue.row (rowLengthIssue (length headers) i (length row)) = i + 2.
Proof.
  intros Hrow Hlen. split; [|done]. unfold validateCsvData.
  set (numericColumns := map ColumnInfo.name _).
  rewrite <- (validateRow_short headers numericColumns i row Hlen).
  exact (issues_of_row headers numericColumns 0 i rows row Hrow).
Qed.

(** The example of the specification: the header [a,b,c] and the row [1,2]. *)
Lemma validateCsvData_row_length_witness :
  let headers := [str "a"; str "b"; str "c"] in
  let rows := [[str "1"; str "2"]] in
  List.filter (fun issue => ValidationIssue.row issue =? 2)
    (validateCsvData headers rows (profile headers rows))
  = [ValidationIssue.mk INCONSISTENT_ROW_LENGTH None 2 None
       (str "Expected 3 columns, but found 2.")].
Proof.
  refine (proj1 (validateCsvData_row_length [str "a"; str "b"; str "c"]
    [[str "1"; str "2"]] (profile [str "a"; str "b"; str "c"] [[str "1"; str "2"]])
    0 [str "1"; str "2"] eq_refl _)).
  simpl. lia.
Defined.

(** ** The reduction of the classifications of a column (C8) *)

Section Reduction.

Import Sampling.


(** The sets the code feeds to the reduction have no repetition. *)
Lemma set_add_NoDup (t : CellType) (types : list CellType) :
  NoDup types -> NoDup (set_add t types).
Proof.
  intros Hnd. unfold set_add. case_bool_decide as Hin; [done|].
  apply NoDup_app. repeat split; [done| |apply NoDup_singleton].
  intros x Hx Hx'. apply list_elem_of_singleton in Hx' as ->. done.
Qed.

Lemma visitCell_ok (row : list jsstring) (st : scan) (ih : nat * jsstring) :
  scan_ok st -> scan_ok (visitCell row st ih).
Proof.
  intros Hok. destruct ih as [index header]. unfold visitCell.
  destruct header as [|c header]; [done|].
  destruct (row !! index) as [cell|]; [|done].
  destruct (nonblank cell); [|done].
  unfold scan_ok in *. simpl. intros k types Hk.
  apply lookup_alter_Some in Hk as [(_ & old & Hold & ->)|[_ Hk]].
  - apply set_add_NoDup. by eapply Hok.
  - by eapply Hok.
Qed.

Lemma foldl_invariant {A B} (P : A -> Prop) (f : A -> B -> A) (l : list B) (a : A) :
  (forall a b, P a -> P (f a b)) -> P a -> P (foldl f a l).
Proof. intros Hf. revert a. induction l as [|b l IH]; simpl; auto. Qed.

Lemma visitRow_ok (headers : list jsstring) (st : scan) (row : list jsstring) :
  scan_ok st -> scan_ok (visitRow headers st row).
Proof. apply foldl_invariant. intros a b. apply visitCell_ok. Qed.

End Reduction.

(** ** The sampling profiler *)

Section SamplingProfile.

Import Sampling.

(** A fold whose steps can only add to what holds of the state. *)
Lemma foldl_accum {A B} (f : A -> B -> A) (I Q : A -> Prop) (E : B -> Prop)
    (l : list B) (a : A) :
  (forall a b, I a -> I (f a b)) ->
  (forall a b, I a -> (Q (f a b) <-> Q a \/ E b)) ->
  I a -> (Q (foldl f a l) <-> Q a \/ exists b, b ∈ l /\ E b).
Proof.
  intros HI HQ. revert a. induction l as [|b l IH]; intros a Ha; simpl.
  - split; [by left|]. intros [?|(b & Hb%elem_of_nil & _)]; done.
  - rewrite (IH _ (HI _ b Ha)), (HQ _ _ Ha). split.
    + intros [[?|?]|(b' & Hb' & ?)]; [by left| |].
      * right. exists b. split; [left|done].
      * right. exists b'. split; [by right|done].
    + intros [?|(b' & [->|Hb']%elem_of_cons & ?)].
      * by left; left.
      * by left; right.
      * right. by exists b'.
Qed.

Lemma visitCell_dom (row : list jsstring) (st : scan) (ih : nat * jsstring)
    (h : jsstring) :
  is_Some ((visitCell row st ih).1 !! h) <-> is_Some (st.1 !! h).
Proof.
  destruct ih as [index header]. unfold visitCell.
  destruct header as [|a header]; [done|].
  destruct (row !! index) as [cell|]; [|done].
  destruct (nonblank cell); [|done]. simpl.
  destruct (decide (a :: header = h)) as [<-|Hne].
  - rewrite lookup_alter_eq. by rewrite fmap_is_Some.
  - by rewrite lookup_alter_ne.
Qed.

Lemma elem_of_set_add (t u : CellType) (types : list CellType) :
  t ∈ set_add u types <-> t ∈ types \/ u = t.
Proof.
  unfold set_add. case_bool_decide as Hin.
  - split; [by left|]. by intros [?| <-].
  - rewrite elem_of_app, list_elem_of_singleton. split.
    + intros [?| ->]; [by left|by right].
    + intros [?| <-]; [by left|by right].
Qed.

Lemma visitCell_types (row : list jsstring) (st : scan) (index : nat)
    (header h : jsstring) (t : CellType) :
  h <> [] -> is_Some (st.1 !! h) ->
  t ∈ default [] ((visitCell row st (index, header)).1 !! h)
  <-> t ∈ default [] (st.1 !! h)
      \/ (header = h /\ exists cell, row !! index = Some cell
            /\ nonblank cell = true /\ inferDataType cell = t).
Proof.
  intros Hne [types Hh]. unfold visitCell.
  destruct header as [|a header].
  { split; [by left|]. by intros [?|[<- _]]. }
  destruct (row !! index) as [cell|] eqn:Hcell.
  2:{ split; [by left|]. by intros [?|(_ & ? & ? & _)]. }
  destruct (nonblank cell) eqn:Hnb.
  2:{ split; [by left|]. intros [?|(_ & ? & [= <-] & ? & _)]; [done|congruence]. }
  simpl. destruct (decide (a :: header = h)) as [<-|Hneq].
  - rewrite lookup_alter_eq, Hh. simpl. rewrite elem_of_set_add. split.
    + intros [?|?]; [by left|]. right. split; [done|]. by exists cell.
    + intros [?|(_ & ? & [= <-] & _ & ?)]; [by left|by right].
  - rewrite lookup_alter_ne by done. split; [by left|]. by intros [?|[? _]].
Qed.

Lemma visitCell_missing (row : list jsstring) (st : scan) (index : nat)
    (header h : jsstring) :
  h <> [] ->
  h ∈ (visitCell row st (index, header)).2
  <-> h ∈ st.2
      \/ (header = h
          /\ forall cell, row !! index = Some cell -> nonblank cell = false).
Proof.
  intros Hh. unfold visitCell. destruct header as [|a header].
  { split; [by left|]. by intros [?|[<- _]]. }
  destruct (row !! index) as [cell|] eqn:Hcell.
  - destruct (nonblank cell) eqn:Hnb; simpl.
    + split; [by left|]. intros [?|[_ Hc]]; [done|].
      specialize (Hc cell eq_refl). congruence.
    + rewrite elem_of_union, elem_of_singleton. split.
      * intros [->|?]; [|by left]. right. split; [done|]. by intros ? [= <-].
      * intros [?|[<- _]]; [by right|by left].
  - simpl. rewrite elem_of_union, elem_of_singleton. split.
    + intros [->|?]; [|by left]. by right.
    + intros [?|[<- _]]; [by right|by left].
Qed.

Lemma visitRow_dom (headers : list jsstring) (st : scan) (row : list jsstring)
    (h : jsstring) :
  is_Some ((visitRow headers st row).1 !! h) <-> is_Some (st.1 !! h).
Proof.
  unfold visitRow. generalize (imap pair headers). intros l. revert st.
  induction l as [|ih l IH]; intros st; simpl; [done|].
  by rewrite IH, visitCell_dom.
Qed.

Lemma visitRow_types (headers : list jsstring) (st : scan) (row : list jsstring)
    (h : jsstring) (t : CellType) :
  h <> [] -> is_Some (st.1 !! h) ->
  t ∈ default [] ((visitRow headers st row).1 !! h)
  <-> t ∈ default [] (st.1 !! h)
      \/ exists index cell, headers !! index = Some h /\ row !! index = Some cell
           /\ nonblank cell = true /\ inferDataType cell = t.
Proof.
  intros Hne Hh. unfold visitRow.
  rewrite (foldl_accum (visitCell row) (fun st => is_Some (st.1 !! h))
             (fun st => t ∈ default [] (st.1 !! h))
             (fun ih => ih.2 = h /\ exists cell, row !! ih.1 = Some cell
                          /\ nonblank cell = true /\ inferDataType cell = t)).
  - split; (intros [?|Hex]; [by left|right]).
    + destruct Hex as ([index header] & Hin & <- & cell & ?).
      apply elem_of_lookup_imap in Hin as (i & y & [= -> ->] & Hy).
      by exists i, cell.
    + destruct Hex as (index & cell & Hi & ?). exists (index, h).
      split; [|split; [done|by exists cell]].
      by apply (elem_of_lookup_imap_2 pair).
  - intros a b. by rewrite visitCell_dom.
  - intros a [index header] Ha. by apply visitCell_types.
  - done.
Qed.

Lemma visitRow_missing (headers : list jsstring) (st : scan) (row : list jsstring)
    (h : jsstring) :
  h <> [] ->
  h ∈ (visitRow headers st row).2
  <-> h ∈ st.2
      \/ exists index, headers !! index = Some h
           /\ forall cell, row !! index = Some cell -> nonblank cell = false.
Proof.
  intros Hh. unfold visitRow.
  rewrite (foldl_accum (visitCell row) (fun _ => True) (fun st => h ∈ st.2)
             (fun ih => ih.2 = h
                /\ forall cell, row !! ih.1 = Some cell -> nonblank cell = false)).
  - split; (intros [?|Hex]; [by left|right]).
    + destruct Hex as ([index header] & Hin & <- & ?).
      apply elem_of_lookup_imap in Hin as (i & y & [= -> ->] & Hy).
      by exists i.
    + destruct Hex as (index & Hi & ?). exists (index, h).
      split; [|done]. by apply (elem_of_lookup_imap_2 pair).
  - done.
  - intros a [index header] _. by apply visitCell_missing.
  - done.
Qed.

(** The dictionary before the rows are read: an empty set under every
    header that is not the empty text. *)
Lemma columnTypes_initial (headers : list jsstring) (h : jsstring) :
  let columnTypes : gmap jsstring (list CellType) :=
    foldl (fun m h => if truthy h then <[h := []]> m else m) ∅ headers in
  (h ∈ headers -> h <> [] -> columnTypes !! h = Some [])
  /\ default [] (columnTypes !! h) = [].
Proof.
  simpl. induction headers as [|x headers IH] using rev_ind; simpl.
  - split; [by intros ?%elem_of_nil|done].
  - rewrite foldl_app. simpl. destruct IH as [IH1 IH2].
    destruct x as [|a x]; simpl.
    + split; [|done]. intros [?| ->%list_elem_of_singleton]%elem_of_app ?; auto.
      done.
    + destruct (decide (a :: x = h)) as [<-|Hne].
      * rewrite lookup_insert_eq. done.
      * rewrite lookup_insert_ne by done. split; [|done].
        intros [?| ->%list_elem_of_singleton]%elem_of_app ?; auto. done.
Qed.

End SamplingProfile.

(** The classifications behind the type of a column: the list the reduction
    is applied to has no repetition, and it holds exactly the classifications
    of the cells that are not blank, in the first fifty rows, under a header
    with the name of the column. *)
Lemma analyzeColumns_classified (csvText first : jsstring)
    (rest : list jsstring) (c : Sampling.ColumnInfo) :
  split nl (trim csvText) = first :: rest ->
  c ∈ Sampling.analyzeColumns csvText ->
  exists types,
    NoDup types /\ Sampling.type c = Sampling.finalType types
    /\ forall t, t ∈ types
         <-> exists row index cell,
               row ∈ take 50 rest
               /\ parseLine first !! index = Some (Sampling.name c)
               /\ parseLine row !! index = Some cell
               /\ nonblank cell = true
               /\ Sampling.inferDataType cell = t.
Proof.
  intros Hsplit. unfold Sampling.analyzeColumns. rewrite Hsplit.
  destruct (_ || _). { by intros ?%elem_of_nil. }
  set (headers := parseLine first).
  set (columnTypes := foldl _ ∅ headers).
  set (st := foldl _ _ _).
  intros (h & -> & Hh)%list_elem_of_fmap. simpl.
  apply list_elem_of_In, filter_In in Hh as [Hin%list_elem_of_In Htruthy].
  assert (Hne : h <> []) by (by destruct h).
  destruct (columnTypes_initial headers h) as [Hinit Hnil].
  fold columnTypes in Hinit, Hnil. specialize (Hinit Hin Hne).
  exists (default [] (st.1 !! h)). split; [|split; [done|]].
  - assert (Hok : Sampling.scan_ok st).
    { unfold st. apply foldl_invariant; [intros a b; apply visitRow_ok|].
      unfold Sampling.scan_ok. simpl.
      apply foldl_invariant
        with (P := map_Forall (fun _ types => NoDup types)).
      - intros m x Hm. destruct (Sampling.truthy x); [|done].
        apply map_Forall_insert_2; [apply NoDup_nil_2|done].
      - apply map_Forall_empty. }
    destruct (st.1 !! h) as [types|] eqn:Hlook; simpl; [|apply NoDup_nil_2].
    by eapply Hok.
  - intros t. unfold st.
    rewrite (foldl_accum (Sampling.visitRow headers)
               (fun st => is_Some (st.1 !! h))
               (fun st => t ∈ default [] (st.1 !! h))
               (fun row => exists index cell, headers !! index = Some h
                  /\ row !! index = Some cell /\ nonblank cell = true
                  /\ Sampling.inferDataType cell = t)).
    + simpl. rewrite Hnil. split.
      * intros [?%elem_of_nil|(row' & (row & -> & Hrow)%list_elem_of_fmap
                                  & i & cell & ?)]; [done|].
        by exists row, i, cell.
      * intros (row & i & cell & Hrow & ?). right. exists (parseLine row).
        split; [by apply list_elem_of_fmap_2|]. by exists i, cell.
    + intros a row. by rewrite visitRow_dom.
    + intros a row Ha. by apply visitRow_types.
    + simpl. by rewrite Hinit.
Qed.





(** ** The numeric statistics (C6) *)

Section Statistics.

Lemma binary_round_aux_is_pos s m e l :
  is_pos (binary_round_aux prec emax s m e l) = true -> s = false.
Proof.
  unfold binary_round_aux.
  destruct (shr_fexp _ _ _ _ _) as [mrs' e'].
  destruct (shr_fexp _ _ _ _ _) as [mrs'' e''].
  destruct (shr_m mrs''); [| destruct (_ <=? _)%Z |]; by destruct s.
Qed.

Lemma binary_normalize_is_pos m e :
  is_pos (binary_normalize prec emax m e false) = true -> (0 < m)%Z.
Proof.
  destruct m as [|p|p]; simpl; [done|lia|].
  unfold binary_round. destruct (shl_align _ _ _) as [mz ez].
  by intros ?%binary_round_aux_is_pos.
Qed.

(** If the comparator puts [a] after [b], it does not put [b] after [a]. *)
Lemma above_asym (a b : number) : above a b = true -> above b a = false.
Proof.
  unfold above, sub.
  destruct a as [sa|sa| |sa ma ea], b as [sb|sb| |sb mb eb];
    try done; try (by destruct sa); try (by destruct sb); try (by destruct sa, sb).
  unfold SFsub. rewrite (Z.min_comm eb ea).
  intros H%binary_normalize_is_pos.
  destruct (is_pos _) eqn:H'; [|done].
  apply binary_normalize_is_pos in H'. lia.
Qed.

Lemma sort_insert_perm (x : number) (l : list number) : sort_insert x l ≡ₚ x :: l.
Proof.
  induction l as [|y l IH]; simpl; [done|].
  destruct (is_pos _); [done|]. rewrite IH. apply Permutation_swap.
Qed.

Lemma sort_perm (data : list number) : sort data ≡ₚ data.
Proof.
  unfold sort.
  assert (H : forall acc, foldl (fun acc x => sort_insert x acc) acc data ≡ₚ acc ++ data).
  { induction data as [|x data IH]; intros acc; simpl.
    - by rewrite app_nil_r.
    - rewrite IH, sort_insert_perm. simpl. apply Permutation_middle. }
  apply (H []).
Qed.

Lemma sort_insert_HdRel (y x : number) (l : list number) :
  above y x = false ->
  HdRel (fun a b => above a b = false) y l ->
  HdRel (fun a b => above a b = false) y (sort_insert x l).
Proof.
  intros Hyx Hl. destruct l as [|z l]; simpl; [by constructor|].
  destruct (is_pos _); constructor; [done|]. by inversion Hl.
Qed.

Lemma sort_insert_Sorted (x : number) (l : list number) :
  Sorted (fun a b => above a b = false) l ->
  Sorted (fun a b => above a b = false) (sort_insert x l).
Proof.
  induction 1 as [|y l Hl IH Hhd]; simpl; [by repeat constructor|].
  destruct (is_pos (sub y x)) eqn:Hyx.
  - constructor; [by constructor|]. constructor. by apply above_asym.
  - constructor; [done|]. by apply sort_insert_HdRel.
Qed.

(** No element of the sorted list is put after its successor. *)
Lemma sort_Sorted (data : list number) :
  Sorted (fun a b => above a b = false) (sort data).
Proof.
  unfold sort. apply foldl_invariant; [|constructor].
  intros acc x. apply sort_insert_Sorted.
Qed.

Lemma sort_length (data : list number) : length (sort data) = length data.
Proof. apply Permutation_length, sort_perm. Qed.

Lemma at_lookup (l : list number) (i : nat) :
  i < length l -> l !! i = Some (at_ l i).
Proof.
  intros [x Hx]%lookup_lt_is_Some_2. unfold at_. by rewrite Hx.
Qed.

End Statistics.

(** C6, as the specification states it, fails for the minimum and the
    maximum: they are stored as they are in the data, not rounded to two
    decimals. *)
Lemma getNumericStats_min_max_counterexample :
  let s := getNumericStats [Number (str "1.234")] in
  NumericStats.min s = Number (str "1.234")
  /\ NumericStats.max s = Number (str "1.234")
  /\ toFixed2 (Number (str "1.234")) = Number (str "1.23")
  /\ NumericStats.min s <> toFixed2 (NumericStats.min s)
  /\ NumericStats.max s <> toFixed2 (NumericStats.max s).
Proof. vm_compute. repeat split; congruence. Qed.

(** C6, amended: for every list of numbers that is not empty, with [sorted]
    the sorted list (a permutation of the data in which no element is above
    its successor): the stored mean is the sum divided by the count, the
    stored median is the middle element of [sorted] for an odd count and the
    half of the sum of the two middle elements for an even count, the stored
    deviation is the square root of the sum of the squared deviations from the
    mean divided by the count (N, not N - 1), and these three are rounded to
    two decimals; the stored minimum and maximum are the first and the last
    element of [sorted], as they are, not rounded. *)
Theorem getNumericStats_formulas (data : list number) :
  data <> [] ->
  let n := length data in
  let sorted := sort data in
  let s := getNumericStats data in
  let mean := div (foldl add zero data) (of_nat n) in
  sorted ≡ₚ data
  /\ Sorted (fun a b => above a b = false) sorted
  /\ NumericStats.mean s = toFixed2 mean
  /\ (n mod 2 = 1 ->
      exists m, sorted !! (n / 2) = Some m /\ NumericStats.median s = toFixed2 m)
  /\ (n mod 2 = 0 ->
      exists a b, sorted !! (n / 2 - 1) = Some a /\ sorted !! (n / 2) = Some b
        /\ NumericStats.median s = toFixed2 (div (add a b) (of_nat 2)))
  /\ NumericStats.stdDev s
     = toFixed2 (sqrt (div (squaredDeviations data mean) (of_nat n)))
  /\ head sorted = Some (NumericStats.min s)
  /\ last sorted = Some (NumericStats.max s).
Proof.
  intros Hne n sorted s mean.
  assert (Hn : 0 < n).
  { unfold n. destruct data; [done|simpl; lia]. }
  assert (Hlen : length sorted = n) by apply sort_length.
  assert (Hmid : n / 2 < n) by (apply Nat.div_lt; lia).
  unfold s, getNumericStats. fold n.
  destruct (decide (n = 0)) as [|_]; [lia|]. fold sorted. rewrite Hlen.
  cbn [NumericStats.mean NumericStats.median NumericStats.stdDev
       NumericStats.min NumericStats.max].
  split; [apply sort_perm|]. split; [apply sort_Sorted|]. split; [done|].
  split; [|split; [|split; [done|split]]].
  - intros Hodd. exists (at_ sorted (n / 2)).
    split; [apply at_lookup; lia|].
    destruct (decide (n mod 2 = 0)); [lia|done].
  - intros Heven. exists (at_ sorted (n / 2 - 1)), (at_ sorted (n / 2)).
    split; [apply at_lookup; lia|]. split; [apply at_lookup; lia|].
    destruct (decide (n mod 2 = 0)); [done|lia].
  - rewrite head_lookup. apply at_lookup. lia.
  - rewrite last_lookup, Hlen. replace (pred n) with (n - 1) by lia.
    apply at_lookup. lia.
Qed.

(** The example of the specification, 1, 2, 3, 4: the median is the rounded
    half of the sum of the two middle elements, 2 and 3. *)
Lemma getNumericStats_formulas_witness :
  let data := map Number [str "3"; str "1"; str "4"; str "2"] in
  NumericStats.median (getNumericStats data) = Number (str "2.5")
  /\ last (sort data) = Some (NumericStats.max (getNumericStats data)).
Proof.
  destruct (getNumericStats_formulas (map Number [str "3"; str "1"; str "4"; str "2"]))
    as (_ & _ & _ & _ & Heven & _ & _ & Hmax); [done|].
  split; [|exact Hmax].
  destruct (Heven eq_refl) as (a & b & Ha & Hb & ->).
  vm_compute in Ha, Hb. injection Ha as <-. injection Hb as <-.
  vm_compute. reflexivity.
Defined.


(** ** Trimming and searching *)

Section Strings.

Lemma ltrim_app (x y : jsstring) :
  ltrim (x ++ y) = if forallb is_ws x then ltrim y else ltrim x ++ y.
Proof.
  induction x as [|c x IH]; simpl; [done|].
  destruct (is_ws c); simpl; [exact IH|done].
Qed.

Lemma ltrim_all_ws (x : jsstring) : forallb is_ws x = true -> ltrim x = [].
Proof.
  induction x as [|c x IH]; simpl; [done|]. destruct (is_ws c); simpl; [exact IH|done].
Qed.

Lemma forallb_rev {A} (f : A -> bool) (l : list A) :
  forallb f (rev l) = forallb f l.
Proof.
  induction l as [|a l IH]; simpl; [done|].
  rewrite forallb_app, IH. simpl. rewrite andb_true_r. apply andb_comm.
Qed.

Lemma rtrim_app (x y : jsstring) :
  rtrim (x ++ y) = if forallb is_ws y then rtrim x else x ++ rtrim y.
Proof.
  unfold rtrim. rewrite rev_app_distr, ltrim_app, forallb_rev.
  destruct (forallb is_ws y); [done|]. by rewrite rev_app_distr, rev_involutive.
Qed.

Lemma rtrim_all_ws (x : jsstring) : forallb is_ws x = true -> rtrim x = [].
Proof.
  intros H. unfold rtrim. rewrite ltrim_all_ws; [done|]. by rewrite forallb_rev.
Qed.

Lemma rtrim_cons (c : ascii) (x : jsstring) :
  rtrim (c :: x) = if forallb is_ws x then rtrim [c] else c :: rtrim x.
Proof. apply (rtrim_app [c] x). Qed.

Lemma rtrim_single (c : ascii) : rtrim [c] = if is_ws c then [] else [c].
Proof. unfold rtrim. simpl. by destruct (is_ws c). Qed.

(** Trimming on the left and trimming on the right commute. *)
Lemma ltrim_rtrim (s : jsstring) : ltrim (rtrim s) = rtrim (ltrim s).
Proof.
  induction s as [|c s IH]; [done|].
  rewrite rtrim_cons, rtrim_single. simpl.
  destruct (is_ws c) eqn:Hc.
  - destruct (forallb is_ws s) eqn:Hs.
    + by rewrite (ltrim_all_ws s Hs).
    + simpl. by rewrite Hc.
  - rewrite rtrim_cons, rtrim_single, Hc.
    destruct (forallb is_ws s); simpl; by rewrite Hc.
Qed.

Lemma ltrim_ltrim_app (x z : jsstring) : ltrim (ltrim x ++ z) = ltrim (x ++ z).
Proof.
  induction x as [|c x IH]; simpl; [done|].
  destruct (is_ws c) eqn:Hc; [exact IH|]. simpl. by rewrite Hc.
Qed.

Lemma rtrim_app_rtrim (z y : jsstring) : rtrim (z ++ rtrim y) = rtrim (z ++ y).
Proof.
  unfold rtrim. rewrite !rev_app_distr, rev_involutive. by rewrite ltrim_ltrim_app.
Qed.

(** Trimming the two ends of a text first changes nothing for [trim]. *)
Lemma trim_ltrim_rtrim (x y : jsstring) : trim (ltrim x ++ rtrim y) = trim (x ++ y).
Proof.
  unfold trim.
  rewrite ltrim_ltrim_app, <- !ltrim_rtrim. by rewrite rtrim_app_rtrim.
Qed.

(** A block that starts and ends with a code unit that is no white space
    stays in place under [trim]. *)
Lemma trim_around (x m y : jsstring) (a b : ascii) :
  is_ws a = false -> is_ws b = false ->
  trim (x ++ (a :: m ++ [b]) ++ y) = ltrim x ++ (a :: m ++ [b]) ++ rtrim y.
Proof.
  intros Ha Hb. unfold trim.
  assert (Hl : ltrim (x ++ (a :: m ++ [b]) ++ y) = ltrim x ++ (a :: m ++ [b]) ++ y).
  { rewrite ltrim_app. destruct (forallb is_ws x) eqn:Hx; [|done].
    rewrite (ltrim_all_ws x Hx). simpl. by rewrite Ha. }
  rewrite Hl.
  replace (ltrim x ++ (a :: m ++ [b]) ++ y) with ((ltrim x ++ a :: m) ++ [b] ++ y).
  2:{ rewrite <- !app_assoc. simpl. by rewrite <- !app_assoc. }
  rewrite rtrim_app.
  assert (Hby : forallb is_ws ([b] ++ y) = false) by (simpl; by rewrite Hb).
  rewrite Hby. rewrite (rtrim_app [b] y).
  destruct (forallb is_ws y) eqn:Hy.
  - rewrite rtrim_single, Hb, (rtrim_all_ws y Hy).
    rewrite <- !app_assoc. simpl. by rewrite <- !app_assoc.
  - rewrite <- !app_assoc. simpl. by rewrite <- !app_assoc.
Qed.

Lemma plain_app (x y : jsstring) : plain (x ++ y) = plain x && plain y.
Proof. apply forallb_app. Qed.

Lemma plain_ltrim (x : jsstring) : plain x = true -> plain (ltrim x) = true.
Proof.
  induction x as [|c x IH]; simpl; [done|].
  intros [Hc Hx]%andb_true_iff. destruct (is_ws c); [by apply IH|].
  simpl. by rewrite Hc.
Qed.

Lemma plain_rev (x : jsstring) : plain (rev x) = plain x.
Proof. apply forallb_rev. Qed.

Lemma plain_rtrim (x : jsstring) : plain x = true -> plain (rtrim x) = true.
Proof.
  intros H. unfold rtrim. rewrite plain_rev. apply plain_ltrim. by rewrite plain_rev.
Qed.

Lemma plain_trim (x : jsstring) : plain x = true -> plain (trim x) = true.
Proof. intros H. by apply plain_rtrim, plain_ltrim. Qed.

(** *** [find_sub] *)

Lemma find_sub_skip (p : jsstring) (c : ascii) (s : jsstring) :
  starts_with p (c :: s) = false ->
  find_sub p (c :: s) = behind [c] (find_sub p s).
Proof.
  intros H. simpl find_sub at 1. rewrite H. simpl.
  by destruct (find_sub p s) as [[a b]|].
Qed.

Lemma starts_with_app (p r : jsstring) : starts_with p (p ++ r) = true.
Proof. induction p as [|c p IH]; simpl; [done|]. by rewrite Ascii.eqb_refl. Qed.

Lemma find_sub_here (p r : jsstring) : find_sub p (p ++ r) = Some ([], r).
Proof.
  assert (H : starts_with p (p ++ r) = true) by apply starts_with_app.
  destruct (p ++ r) eqn:E; simpl find_sub; rewrite H; rewrite <- E;
    by rewrite drop_app_length.
Qed.

Lemma behind_app (x y : jsstring) r : behind x (behind y r) = behind (x ++ y) r.
Proof. destruct r as [[a b]|]; simpl; [|done]. by rewrite app_assoc. Qed.

Lemma plain_cons (c : ascii) (x : jsstring) :
  plain (c :: x) = negb (Ascii.eqb c backtick) && plain x.
Proof. done. Qed.

(** A pattern that starts with a backtick is not found in a plain text. *)
Lemma find_sub_plain (p x r : jsstring) :
  plain x = true ->
  find_sub (backtick :: p) (x ++ r) = behind x (find_sub (backtick :: p) r).
Proof.
  induction x as [|c x IH].
  - intros _. simpl. by destruct (find_sub _ r) as [[a b]|].
  - rewrite plain_cons, <- app_comm_cons. intros [Hc Hx]%andb_true_iff.
    rewrite find_sub_skip.
    + rewrite (IH Hx). apply (behind_app [c] x).
    + cbn [starts_with]. rewrite Ascii.eqb_sym. by destruct (Ascii.eqb c backtick).
Qed.

(** The closing of a fence is found right behind a plain body. *)
Lemma find_sub_close (body r : jsstring) :
  plain body = true ->
  find_sub fence_close (body ++ fence_close ++ r) = Some (body, r).
Proof.
  induction body as [|c body IH].
  - intros _. apply (find_sub_here fence_close r).
  - rewrite plain_cons, <- app_comm_cons. intros [Hc Hb]%andb_true_iff.
    rewrite find_sub_skip.
    + by rewrite (IH Hb).
    + unfold fence_close at 1. cbn [starts_with].
      destruct (Ascii.eqb nl c); [|done].
      change (str "```") with (backtick :: backtick :: [backtick]).
      destruct body as [|d body]; [done|].
      rewrite plain_cons in Hb. apply andb_true_iff in Hb as [Hd _].
      rewrite <- app_comm_cons. cbn [starts_with andb]. rewrite Ascii.eqb_sym.
      by destruct (Ascii.eqb d backtick).
Qed.

End Strings.

(** ** The matches of the two patterns in a text with two blocks *)

Section Fences.

Abbreviation bt := backtick (only parsing).

Lemma fence_open_eq (tag : jsstring) :
  fence_open tag = bt :: bt :: bt :: tag ++ [nl].
Proof. done. Qed.

Lemma fence_close_eq : fence_close = nl :: bt :: bt :: [bt].
Proof. done. Qed.

Lemma find_sub_open_plain (tag x r : jsstring) :
  plain x = true ->
  find_sub (fence_open tag) (x ++ r) = behind x (find_sub (fence_open tag) r).
Proof. intros H. exact (find_sub_plain _ x r H). Qed.

(** The match of a pattern whose block is the first fence of the text. *)
Lemma regex_match_first (tag x body r : jsstring) :
  plain x = true -> plain body = true ->
  regex_match tag (x ++ fenced tag body ++ r) = Some (x, body, r).
Proof.
  intros Hx Hb. unfold regex_match, fenced. rewrite <- !app_assoc.
  rewrite find_sub_open_plain by done. rewrite find_sub_here. cbn [behind].
  rewrite app_nil_r. by rewrite find_sub_close.
Qed.

End Fences.

(** ** The payload extractor (C1, C2, C9) *)

Section Extractor.

Variable JSON_parse : jsstring -> option JSON.value.

Lemma group1_Some (a body c : jsstring) :
  body <> [] -> group1 (Some (a, body, c)) = Some body.
Proof. by destruct body. Qed.

Lemma group1_inv m (body : jsstring) :
  group1 m = Some body -> exists a c, m = Some (a, body, c) /\ body <> [].
Proof.
  destruct m as [[[a b] c]|]; [|done]. destruct b as [|d b]; [done|].
  intros [= <-]. by exists a, c.
Qed.

(** A response without a CSV block to take and with a JSON block that does
    not parse: nothing is taken, nothing is cut. *)
Lemma extract_malformed_only (aiResponse body : jsstring) :
  group1 (regex_match csv_tag aiResponse) = None ->
  group1 (regex_match json_tag aiResponse) = Some body ->
  JSON_parse body = None ->
  extract JSON_parse aiResponse = mkExtraction aiResponse None None.
Proof. intros Hcsv Hjson Hparse. unfold extract. by rewrite Hcsv, Hjson, Hparse. Qed.

(** A response with both blocks: the CSV block is cut and the text trimmed,
    then the JSON block found in that text is cut and the text trimmed. *)
Lemma extract_both (aiResponse a1 cb c1 a2 jb c2 a3 jb' c3 : jsstring)
    (v : JSON.value) :
  regex_match csv_tag aiResponse = Some (a1, cb, c1) -> cb <> [] ->
  regex_match json_tag aiResponse = Some (a2, jb, c2) -> jb <> [] ->
  JSON_parse jb = Some v ->
  regex_match json_tag (trim (a1 ++ c1)) = Some (a3, jb', c3) ->
  extract JSON_parse aiResponse
  = mkExtraction (trim (a3 ++ c3)) (Some v) (Some (trim cb)).
Proof.
  intros Hcsv Hcb Hjson Hjb Hparse Hjson'. unfold extract, regex_remove.
  rewrite Hcsv, Hjson, !group1_Some by done. rewrite Hparse. by rewrite Hjson'.
Qed.

(** The replacement of the dataset is unconditional: whatever the profiler
    makes of the new text is stored. *)
Lemma respond_installs_replacement (st : AppState) (prev : UploadedFile.t)
    (aiResponse body : jsstring) :
  uploadedFile st = Some prev ->
  group1 (regex_match csv_tag aiResponse) = Some body ->
  exists st', respond JSON_parse st aiResponse = Some st'
    /\ csvData st' = Some (trim body)
    /\ uploadedFile st'
       = Some (UploadedFile.mk (UploadedFile.name prev) (analyzeColumns (trim body))).
Proof.
  intros Hprev Hcsv. unfold respond, extract. rewrite Hcsv.
  destruct (group1 (regex_match json_tag aiResponse)) as [jb|];
    [destruct (JSON_parse jb)|]; simpl; rewrite Hprev; eauto.
Qed.

End Extractor.

Lemma fenced_shape (tag body : jsstring) :
  exists m, fenced tag body = backtick :: m ++ [backtick].
Proof.
  exists (backtick :: backtick :: tag ++ [nl] ++ body ++ [nl; backtick; backtick]).
  unfold fenced. rewrite fence_open_eq, fence_close_eq. cbn [app].
  do 3 f_equal. rewrite <- !app_assoc. f_equal. cbn [app]. f_equal.
  by rewrite <- app_assoc.
Qed.

Lemma is_ws_backtick : is_ws backtick = false.
Proof. done. Qed.

(** ** C1: the replacement of the dataset is never rejected *)

(** C1 on the code: the reply carries a CSV block whose body, one line, the
    profiler cannot profile.  The handler stores the body as the dataset and
    the empty list as the profiles, and announces an update; the rest of the
    reply is shown. *)
Theorem handleSend_stores_unusable_replacement :
  analyzeColumns (str "abc") = []
  /\ csvData state_before = Some dataset_before
  /\ length (analyzeColumns dataset_before) = 2
  /\ handleSend (fun _ _ _ => Some reply_unusable) JSON.parse state_before
       (str "clean it")
     = Some (mkState
               [Message.mk user (str "clean it") None;
                Message.mk system updatedNotice None;
                Message.mk ai (str "Cleaned.") None]
               false
               (Some (UploadedFile.mk (str "data.csv") []))
               (Some (str "abc"))).
Proof. vm_compute. repeat split. Qed.

(** ** C2: a JSON block that does not parse *)

(** The body of the examples is no JSON text, whatever the fuel of the
    parser: after the brace a key in double quotes has to come. *)
Lemma parse_value_oops (fuel : nat) : JSON.parse_value fuel (str "{oops") = None.
Proof. destruct fuel as [|[|fuel]]; reflexivity. Qed.

(** C2, as the specification states it, fails: the block is not removed.  The
    body does not parse, no chart is returned, and the text returned is the
    response as it came, with the block in it; it is not the text around the
    block. *)
Lemma extract_malformed_json_counterexample :
  regex_match json_tag reply_malformed
  = Some (str "Chart:" ++ [nl], str "{oops", nl :: str "Done.")
  /\ JSON.parse (str "{oops") = None
  /\ chartData (extract JSON.parse reply_malformed) = None
  /\ responseText (extract JSON.parse reply_malformed) = reply_malformed
  /\ responseText (extract JSON.parse reply_malformed)
     <> (str "Chart:" ++ [nl]) ++ nl :: str "Done.".
Proof. vm_compute. repeat split; congruence. Qed.

(** C2, amended: for every response with a JSON block whose body does not
    parse, extraction returns no chart and leaves the block in the text.  The
    text returned is the response as it came when no CSV block is taken, and
    otherwise the response with only the CSV block cut, trimmed. *)
Theorem extract_malformed_json (JSON_parse : jsstring -> option JSON.value)
    (aiResponse body : jsstring) :
  group1 (regex_match json_tag aiResponse) = Some body ->
  JSON_parse body = None ->
  chartData (extract JSON_parse aiResponse) = None
  /\ orUndefined (chartData (extract JSON_parse aiResponse)) = None
  /\ responseText (extract JSON_parse aiResponse)
     = match group1 (regex_match csv_tag aiResponse) with
       | Some _ => trim (regex_remove csv_tag aiResponse)
       | None => aiResponse
       end.
Proof.
  intros Hjson Hparse. unfold extract. rewrite Hjson, Hparse.
  by destruct (group1 (regex_match csv_tag aiResponse)).
Qed.

Lemma extract_malformed_json_witness :
  chartData (extract JSON.parse reply_malformed) = None
  /\ responseText (extract JSON.parse reply_malformed) = reply_malformed.
Proof.
  destruct (extract_malformed_json JSON.parse reply_malformed (str "{oops"))
    as (Hchart & _ & Htext); [reflexivity|reflexivity|].
  split; [exact Hchart|]. rewrite Htext. reflexivity.
Defined.

(** ** Blocks in a text with other backticks *)

Section Blocks.

Lemma starts_with_app_split (q s t : jsstring) :
  starts_with q (s ++ t)
  = starts_with (take (length s) q) s && starts_with (drop (length s) q) t.
Proof.
  revert q. induction s as [|b s IH]; intros q.
  - by destruct q.
  - destruct q as [|a q]; [done|]. cbn [app length take drop starts_with].
    by rewrite IH, andb_assoc.
Qed.

Lemma starts_with_nil (t : jsstring) : starts_with [] t = true.
Proof. by destruct t. Qed.

Lemma starts_with_prefix_app (q p r : jsstring) :
  length q <= length p -> starts_with q (p ++ r) = starts_with q p.
Proof.
  intros Hlen. rewrite starts_with_app_split.
  rewrite take_ge, drop_ge by done. by rewrite starts_with_nil, andb_true_r.
Qed.

Lemma starts_with_app_r (p s b : jsstring) :
  starts_with p s = true -> starts_with p (s ++ b) = true.
Proof.
  revert s. induction p as [|a p IH]; intros s; [by rewrite !starts_with_nil|].
  destruct s as [|c s]; [done|]. cbn [app starts_with].
  intros [-> Hp]%andb_true_iff. by rewrite (IH s Hp).
Qed.

(** Before an occurrence of a pattern that does not overlap with itself, the
    pattern starts only where it starts in the text before. *)
Lemma starts_with_before (p s r : jsstring) :
  border_free p = true -> s <> [] -> starts_with p s = false ->
  starts_with p (s ++ p ++ r) = false.
Proof.
  intros Hfree Hne Hs. rewrite starts_with_app_split.
  destruct (decide (length p <= length s)) as [Hle|Hgt].
  - by rewrite take_ge, Hs by done.
  - rewrite starts_with_prefix_app by (rewrite length_drop; lia).
    assert (Hd : negb (starts_with (drop (length s) p) p) = true).
    { unfold border_free in Hfree.
      apply (proj1 (forallb_forall _ _) Hfree (length s)).
      apply in_seq. destruct s; [done|]. simpl in *. lia. }
    apply negb_true_iff in Hd. by rewrite Hd, andb_false_r.
Qed.

Lemma find_sub_None_inv (p : jsstring) (c : ascii) (s : jsstring) :
  find_sub p (c :: s) = None ->
  starts_with p (c :: s) = false /\ find_sub p s = None.
Proof.
  simpl find_sub at 1. destruct (starts_with p (c :: s)); [done|].
  by destruct (find_sub p s) as [[a b]|].
Qed.

(** The first occurrence of such a pattern behind a text without it. *)
Lemma find_sub_first (p x r : jsstring) :
  border_free p = true -> find_sub p x = None ->
  find_sub p (x ++ p ++ r) = Some (x, r).
Proof.
  intros Hfree. induction x as [|c x IH]; intros Hx.
  - exact (find_sub_here p r).
  - pose proof (find_sub_None_inv p c x Hx) as [Hs Hn].
    rewrite <- app_comm_cons, find_sub_skip.
    + by rewrite (IH Hn).
    + by apply (starts_with_before p (c :: x) r).
Qed.

Lemma find_sub_None_app_l (p a b : jsstring) :
  find_sub p (a ++ b) = None -> find_sub p a = None.
Proof.
  induction a as [|c a IH]; cbn [app].
  - destruct p as [|d p]; [|done]. by destruct b.
  - intros H. apply find_sub_None_inv in H as [Hs Hn].
    rewrite find_sub_skip.
    + by rewrite (IH Hn).
    + destruct (starts_with p (c :: a)) eqn:E; [|done].
      apply (starts_with_app_r p (c :: a) b) in E. cbn [app] in E. congruence.
Qed.

Lemma find_sub_None_app_r (p a b : jsstring) :
  find_sub p (a ++ b) = None -> find_sub p b = None.
Proof.
  induction a as [|c a IH]; cbn [app]; [done|].
  intros H. apply find_sub_None_inv in H as [_ Hn]. by apply IH.
Qed.

Lemma ltrim_suffix (s : jsstring) : exists a, s = a ++ ltrim s.
Proof.
  induction s as [|c s [a IH]]; [by exists []|]. simpl.
  destruct (is_ws c); [|by exists []].
  exists (c :: a). simpl. by rewrite <- IH.
Qed.

Lemma rtrim_prefix (s : jsstring) : exists b, s = rtrim s ++ b.
Proof.
  destruct (ltrim_suffix (rev s)) as [a Ha]. exists (rev a).
  unfold rtrim. by rewrite <- rev_app_distr, <- Ha, rev_involutive.
Qed.

Lemma find_sub_None_ltrim (p s : jsstring) :
  find_sub p s = None -> find_sub p (ltrim s) = None.
Proof.
  destruct (ltrim_suffix s) as [a Ha]. rewrite Ha at 1.
  apply find_sub_None_app_r.
Qed.

Lemma find_sub_None_trim (p s : jsstring) :
  find_sub p s = None -> find_sub p (trim s) = None.
Proof.
  intros H%find_sub_None_ltrim. unfold trim.
  destruct (rtrim_prefix (ltrim s)) as [b Hb]. rewrite Hb in H.
  by apply find_sub_None_app_l in H.
Qed.

Lemma border_free_fences :
  border_free (fence_open csv_tag) = true
  /\ border_free (fence_open json_tag) = true
  /\ border_free fence_close = true.
Proof. done. Qed.

(** The match of a pattern on its block, behind a text without the opening
    of the pattern and with a body without the closing. *)
Lemma regex_match_block (tag pre body r : jsstring) :
  border_free (fence_open tag) = true ->
  find_sub (fence_open tag) pre = None ->
  find_sub fence_close body = None ->
  regex_match tag (pre ++ fenced tag body ++ r) = Some (pre, body, r).
Proof.
  intros Hfree Hpre Hbody. unfold regex_match, fenced. rewrite <- !app_assoc.
  rewrite find_sub_first by done.
  rewrite find_sub_first; [done| |done]. apply border_free_fences.
Qed.

Lemma trim_then_cut_block (tag pre body z : jsstring) :
  border_free (fence_open tag) = true ->
  find_sub (fence_open tag) pre = None ->
  find_sub fence_close body = None ->
  regex_match tag (trim (pre ++ fenced tag body ++ z))
  = Some (ltrim pre, body, rtrim z).
Proof.
  intros Hfree Hpre Hbody. destruct (fenced_shape tag body) as [m Hm].
  rewrite Hm, (trim_around pre m z backtick backtick is_ws_backtick is_ws_backtick).
  rewrite <- Hm. apply regex_match_block; [done| |done].
  by apply find_sub_None_ltrim.
Qed.

End Blocks.

(** ** C9: the order of the two blocks *)

(** C9, as the specification states it, fails when the body of the JSON block
    does not parse: the block stays in the text, so the text returned has the
    markers of a fence in it and depends on the order of the blocks. *)
Lemma extract_block_order_counterexample :
  let x := str "A" ++ [nl] in
  let y := nl :: str "B" ++ [nl] in
  let z := nl :: str "C" in
  let cb := str "a,b" ++ nl :: str "1,2" in
  let jb := str "{oops" in
  responseText (extract JSON.parse (csv_then_json x cb y jb z))
  <> responseText (extract JSON.parse (json_then_csv x cb y jb z))
  /\ plain (responseText (extract JSON.parse (csv_then_json x cb y jb z))) = false
  /\ plain (responseText (extract JSON.parse (json_then_csv x cb y jb z))) = false.
Proof. vm_compute. repeat split; congruence. Qed.

(** A block with an empty body is not taken either: its fence stays in the
    text returned. *)
Example extract_empty_body_kept :
  let text := csv_then_json (str "A" ++ [nl]) [] (nl :: str "B" ++ [nl])
                (str "{}") (nl :: str "C") in
  newCsvData (extract JSON.parse text) = None
  /\ find_sub (fence_open csv_tag) (responseText (extract JSON.parse text))
     = Some (str "A" ++ [nl], nl :: str "```" ++ nl :: str "B" ++ nl :: nl :: str "C").
Proof. vm_compute. done. Qed.

(** C9, amended: take one CSV block and one JSON block, with bodies that
    are not empty and hold no closing fence, the JSON body one that parses,
    and texts [x], [y], [z] before, between and behind the blocks, with any
    other backticks in them.  Each block is the first of its kind in both
    orders: the opening of the CSV pattern does not occur in [x], the JSON
    block and [y], the opening of the JSON pattern does not occur in [x], the
    CSV block and [y], nor in [x] and [y] joined.  Then, whichever block
    comes first, extraction returns the same text, the same chart and the
    same new dataset, the trimmed CSV body.  The text returned is the trimmed
    join of [x], [y] and [z], the text outside the two blocks: it holds the
    opening of a pattern only if that join does, and a backtick only if the
    join does. *)
Theorem extract_block_order (JSON_parse : jsstring -> option JSON.value)
    (x cb y jb z : jsstring) (v : JSON.value) :
  find_sub (fence_open csv_tag) (x ++ fenced json_tag jb ++ y) = None ->
  find_sub (fence_open json_tag) (x ++ fenced csv_tag cb ++ y) = None ->
  find_sub (fence_open json_tag) (x ++ y) = None ->
  find_sub fence_close cb = None -> find_sub fence_close jb = None ->
  cb <> [] -> jb <> [] ->
  JSON_parse jb = Some v ->
  let result := mkExtraction (trim (x ++ y ++ z)) (Some v) (Some (trim cb)) in
  extract JSON_parse (csv_then_json x cb y jb z) = result
  /\ extract JSON_parse (json_then_csv x cb y jb z) = result
  /\ (forall tag, find_sub (fence_open tag) (x ++ y ++ z) = None ->
                  find_sub (fence_open tag) (responseText result) = None)
  /\ (plain (x ++ y ++ z) = true -> plain (responseText result) = true).
Proof.
  intros Hcsv Hjson Hjoin Hcb Hjb Hcbne Hjbne Hparse result.
  destruct border_free_fences as (Hfc & Hfj & _).
  pose proof (find_sub_None_app_l _ _ _ Hcsv) as Hcsvx.
  pose proof (find_sub_None_app_l _ _ _ Hjoin) as Hjsonx.
  split; [|split; [|split]].
  - unfold csv_then_json.
    rewrite (extract_both JSON_parse _ x cb (y ++ fenced json_tag jb ++ z)
               (x ++ fenced csv_tag cb ++ y) jb z
               (ltrim (x ++ y)) jb (rtrim z) v); try done.
    + unfold result. by rewrite trim_ltrim_rtrim, <- app_assoc.
    + by apply regex_match_block.
    + replace (x ++ fenced csv_tag cb ++ y ++ fenced json_tag jb ++ z)
        with ((x ++ fenced csv_tag cb ++ y) ++ fenced json_tag jb ++ z)
        by (by rewrite <- !app_assoc).
      by apply regex_match_block.
    + rewrite (app_assoc x y). by apply trim_then_cut_block.
  - unfold json_then_csv.
    rewrite (extract_both JSON_parse _ (x ++ fenced json_tag jb ++ y) cb z
               x jb (y ++ fenced csv_tag cb ++ z)
               (ltrim x) jb (rtrim (y ++ z)) v); try done.
    + unfold result. by rewrite trim_ltrim_rtrim.
    + replace (x ++ fenced json_tag jb ++ y ++ fenced csv_tag cb ++ z)
        with ((x ++ fenced json_tag jb ++ y) ++ fenced csv_tag cb ++ z)
        by (by rewrite <- !app_assoc).
      by apply regex_match_block.
    + by apply regex_match_block.
    + rewrite <- !app_assoc. by apply trim_then_cut_block.
  - intros tag Hout. unfold result. simpl. by apply find_sub_None_trim.
  - intros Hplain. unfold result. simpl. by apply plain_trim.
Qed.

(** The blocks of the witness stand in a text with inline code. *)
Lemma extract_block_order_witness :
  let x := str "Here is `a`." ++ [nl] in
  let y := nl :: str "and ``b``" ++ [nl] in
  let z := nl :: str "bye ` " in
  let cb := str "a,b" ++ nl :: str "1,`2`" in
  let jb := str "{}" in
  extract JSON.parse (csv_then_json x cb y jb z)
  = extract JSON.parse (json_then_csv x cb y jb z)
  /\ responseText (extract JSON.parse (csv_then_json x cb y jb z))
     = str "Here is `a`." ++ nl :: nl :: str "and ``b``" ++ nl :: nl :: str "bye `".
Proof.
  destruct (extract_block_order JSON.parse (str "Here is `a`." ++ [nl])
    (str "a,b" ++ nl :: str "1,`2`") (nl :: str "and ``b``" ++ [nl]) (str "{}")
    (nl :: str "bye ` ") (JSON.Obj []))
    as (H1 & H2 & _); try reflexivity; try discriminate.
  split; [by rewrite H1, H2|]. rewrite H1. reflexivity.
Defined.

(* ================================================================== *)
(** * Further properties of the code *)

(** ** The counts of [getCategoricalStats] *)

Section Counts.

Lemma eqb_str_true (a b : jsstring) : eqb_str a b = true <-> a = b.
Proof. unfold eqb_str. apply bool_decide_eq_true. Qed.

Lemma eqb_str_refl (a : jsstring) : eqb_str a a = true.
Proof. by apply eqb_str_true. Qed.

Lemma countOf_bump (v v' : jsstring) (acc : list (jsstring * nat)) :
  countOf v' (bump v acc)
  = if eqb_str v v' then Some (S (default 0 (countOf v acc))) else countOf v' acc.
Proof.
  induction acc as [|[k n] r IH]; simpl; [done|].
  destruct (eqb_str k v) eqn:Hkv; simpl.
  - apply eqb_str_true in Hkv as ->. by destruct (eqb_str v v').
  - rewrite IH. destruct (eqb_str v v') eqn:Hvv; [|done].
    apply eqb_str_true in Hvv as <-. by rewrite Hkv.
Qed.

Lemma keys_bump (v : jsstring) (acc : list (jsstring * nat)) :
  map fst (bump v acc)
  = if bool_decide (v ∈ map fst acc) then map fst acc else map fst acc ++ [v].
Proof.
  induction acc as [|[k n] r IH]; simpl; [done|].
  destruct (eqb_str k v) eqn:Hkv; simpl.
  - apply eqb_str_true in Hkv as ->.
    rewrite bool_decide_eq_true_2; [done|]. by left.
  - rewrite IH. assert (k <> v) by (intros ->; by rewrite eqb_str_refl in Hkv).
    destruct (bool_decide (v ∈ map fst r)) eqn:Hin.
    + apply bool_decide_eq_true in Hin. rewrite bool_decide_eq_true_2; [done|].
      by right.
    + apply bool_decide_eq_false in Hin. rewrite bool_decide_eq_false_2; [done|].
      intros [->|?]%elem_of_cons; done.
Qed.

Lemma total_bump (v : jsstring) (acc : list (jsstring * nat)) :
  sum_list (map snd (bump v acc)) = S (sum_list (map snd acc)).
Proof.
  induction acc as [|[k n] r IH]; simpl; [done|].
  destruct (eqb_str k v); simpl; [done|]. rewrite IH. lia.
Qed.

Lemma occurrences_snoc (v x : jsstring) (data : list jsstring) :
  occurrences v (data ++ [x])
  = occurrences v data + (if eqb_str x v then 1 else 0).
Proof.
  unfold occurrences. rewrite List.filter_app, length_app. simpl.
  by destruct (eqb_str x v).
Qed.

Lemma occurrences_pos (v : jsstring) (data : list jsstring) :
  0 < occurrences v data <-> v ∈ data.
Proof.
  unfold occurrences. induction data as [|x data IH]; simpl.
  - split; [lia|by intros ?%elem_of_nil].
  - destruct (eqb_str x v) eqn:Hx; simpl.
    + apply eqb_str_true in Hx as ->. split; [by left|lia].
    + rewrite IH, elem_of_cons. split; [by right|].
      intros [->|?]; [by rewrite eqb_str_refl in Hx|done].
Qed.

Lemma valueCounts_snoc (data : list jsstring) (x : jsstring) :
  CategoricalStats.valueCounts (getCategoricalStats (data ++ [x]))
  = bump x (CategoricalStats.valueCounts (getCategoricalStats data)).
Proof. unfold getCategoricalStats. simpl. by rewrite foldl_snoc. Qed.

Lemma valueCounts_countOf (data : list jsstring) (v : jsstring) :
  countOf v (CategoricalStats.valueCounts (getCategoricalStats data))
  = if occurrences v data =? 0 then None else Some (occurrences v data).
Proof.
  revert v. induction data as [|x data IH] using rev_ind; intros v; [done|].
  rewrite valueCounts_snoc, countOf_bump, occurrences_snoc.
  destruct (eqb_str x v) eqn:Hx.
  - apply eqb_str_true in Hx as ->. rewrite IH.
    destruct (occurrences v data) as [|n] eqn:Hn; simpl; [done|].
    destruct (n + 1 =? 0) eqn:E; [apply Nat.eqb_eq in E; lia|]. f_equal. lia.
  - by rewrite IH, Nat.add_0_r.
Qed.

Lemma valueCounts_keys (data : list jsstring) :
  NoDup (map fst (CategoricalStats.valueCounts (getCategoricalStats data)))
  /\ forall v, v ∈ map fst (CategoricalStats.valueCounts (getCategoricalStats data))
               <-> v ∈ data.
Proof.
  induction data as [|x data [IHnd IHin]] using rev_ind.
  - split; [constructor|]. intros v. done.
  - rewrite valueCounts_snoc, keys_bump.
    destruct (bool_decide _) eqn:Hin.
    + apply bool_decide_eq_true in Hin. split; [done|]. intros v.
      rewrite elem_of_app, list_elem_of_singleton, IHin. split; [by left|].
      intros [?| ->]; [done|]. by apply IHin.
    + apply bool_decide_eq_false in Hin. split.
      * apply NoDup_app. repeat split; [done| |apply NoDup_singleton].
        intros y Hy ->%list_elem_of_singleton. done.
      * intros v. by rewrite !elem_of_app, !list_elem_of_singleton, IHin.
Qed.

Lemma valueCounts_total (data : list jsstring) :
  sum_list (map snd (CategoricalStats.valueCounts (getCategoricalStats data)))
  = length data.
Proof.
  induction data as [|x data IH] using rev_ind; [done|].
  rewrite valueCounts_snoc, total_bump, IH, length_app. simpl. lia.
Qed.

End Counts.

(** X1: the record of counts of [getCategoricalStats], for values none of
    which names an inherited property: every value has its number of
    occurrences as its count and a value that does not occur has no entry, no
    key is repeated, [uniqueValues] is the number of distinct values, and the
    counts add up to the number of values. *)
Theorem getCategoricalStats_counts (data : list jsstring) :
  Forall (fun v => v ∉ inheritedNames) data ->
  let s := getCategoricalStats data in
  (forall v, countOf v (CategoricalStats.valueCounts s)
             = if occurrences v data =? 0 then None else Some (occurrences v data))
  /\ NoDup (map fst (CategoricalStats.valueCounts s))
  /\ (forall v, v ∈ map fst (CategoricalStats.valueCounts s) <-> v ∈ data)
  /\ CategoricalStats.uniqueValues s = length (remove_dups data)
  /\ sum_list (map snd (CategoricalStats.valueCounts s)) = length data.
Proof.
  intros _. cbv zeta. destruct (valueCounts_keys data) as [Hnd Hin].
  split; [apply valueCounts_countOf|]. split; [exact Hnd|]. split; [exact Hin|].
  split; [|apply valueCounts_total].
  unfold getCategoricalStats. simpl.
  rewrite <- (length_map fst). apply Permutation_length, NoDup_Permutation.
  - exact Hnd.
  - apply NoDup_remove_dups.
  - intros v. rewrite elem_of_remove_dups. apply Hin.
Qed.

Lemma getCategoricalStats_counts_witness :
  let data := [str "x"; str "y"; str "x"] in
  countOf (str "x") (CategoricalStats.valueCounts (getCategoricalStats data)) = Some 2
  /\ CategoricalStats.uniqueValues (getCategoricalStats data) = 2.
Proof.
  destruct (getCategoricalStats_counts [str "x"; str "y"; str "x"])
    as (Hcount & _ & _ & Huniq & _).
  { repeat constructor; apply (bool_decide_unpack _); reflexivity. }
  split; [exact (Hcount (str "x"))|exact Huniq].
Defined.

(** ** The shape and the types of the profiles *)

Section ProfileShape.

Lemma split_not_nil (sep : ascii) (s : jsstring) : split sep s <> [].
Proof.
  induction s as [|c s IH]; simpl; [done|].
  destruct (Ascii.eqb c sep); [done|]. by destruct (split sep s).
Qed.

Lemma parseLine_not_nil (line : jsstring) : parseLine line <> [].
Proof.
  unfold parseLine. pose proof (split_not_nil comma line).
  by destruct (split comma line).
Qed.

Lemma parseTable_Some (csvText : jsstring) headers rows :
  parseTable csvText = Some (headers, rows) -> headers <> [] /\ rows <> [].
Proof.
  unfold parseTable. destruct (split nl (trim csvText)) as [|first [|second rest]];
    try done.
  intros [= <- <-]. split; [apply parseLine_not_nil|done].
Qed.

Lemma profileColumn_name rows i header :
  ColumnInfo.name (profileColumn rows i header) = header.
Proof. unfold profileColumn. by destruct (_ && _). Qed.

Lemma profile_names (headers : list jsstring) rows :
  map ColumnInfo.name (profile headers rows) = headers.
Proof.
  unfold profile.
  assert (H : forall f : nat -> jsstring -> ColumnInfo.t,
    (forall i h, ColumnInfo.name (f i h) = h) ->
    map ColumnInfo.name (imap f headers) = headers).
  { induction headers as [|h headers IH]; intros f Hf; [done|].
    rewrite imap_cons. simpl. rewrite Hf. f_equal. apply IH.
    intros i h'. apply Hf. }
  apply H. intros i h. apply profileColumn_name.
Qed.

Lemma profileColumn_type_cases rows i header :
  let nonMissing := List.filter nonblank (columnCells rows i) in
  ColumnInfo.type (profileColumn rows i header)
  = if forallb isNumeric nonMissing && (0 <? length nonMissing) then TNumeric
    else if (length (remove_dups nonMissing) <=? 2) && (0 <? length nonMissing)
         then TBoolean else TString.
Proof. unfold profileColumn. fold (columnCells rows i). by destruct (_ && _). Qed.

Lemma profileColumn_stats_cases rows i header :
  let nonMissing := List.filter nonblank (columnCells rows i) in
  ColumnInfo.stats (profileColumn rows i header)
  = if forallb isNumeric nonMissing && (0 <? length nonMissing)
    then Some (SNumeric (getNumericStats (map Number nonMissing)))
    else Some (SCategorical (getCategoricalStats nonMissing)).
Proof. unfold profileColumn. fold (columnCells rows i). by destruct (_ && _). Qed.

Lemma forallb_filter_nonblank (cells : list jsstring) :
  forallb isNumeric (List.filter nonblank cells) = true
  <-> forall v, v ∈ cells -> nonblank v = true -> isNumeric v = true.
Proof.
  rewrite forallb_forall. split.
  - intros H v Hv Hnb. apply H, List.filter_In. split; [by apply list_elem_of_In|done].
  - intros H v [Hv Hnb]%List.filter_In. apply H; [by apply list_elem_of_In|done].
Qed.

Lemma filter_length_pos {A} (f : A -> bool) (l : list A) :
  0 < length (List.filter f l) <-> exists x, x ∈ l /\ f x = true.
Proof.
  induction l as [|a l IH]; simpl.
  - split; [lia|]. by intros (x & ?%elem_of_nil & _).
  - destruct (f a) eqn:Ha; simpl.
    + split; [|lia]. intros _. exists a. split; [by left|done].
    + rewrite IH. split; intros (x & Hx & Hfx).
      * exists x. split; [by right|done].
      * apply elem_of_cons in Hx as [->|Hx]; [congruence|by exists x].
Qed.

Lemma filter_negb_length {A} (f : A -> bool) (l : list A) :
  length (List.filter (fun x => negb (f x)) l) = length l - length (List.filter f l).
Proof.
  induction l as [|a l IH]; simpl; [done|].
  pose proof (filter_length_le f l).
  destruct (f a); simpl; rewrite IH; lia.
Qed.

End ProfileShape.

(** The profiler gives no column only for a text without a table. *)
Lemma analyzeColumns_nil_iff (csvText : jsstring) :
  analyzeColumns csvText = [] <-> parseTable csvText = None.
Proof.
  split.
  - intros Hnil. destruct (parseTable csvText) as [[headers rows]|] eqn:Hp; [|done].
    pose proof (analyzeColumns_profile _ _ _ Hp) as Heq.
    apply parseTable_Some in Hp as [Hh _].
    rewrite Heq in Hnil. apply (f_equal (map ColumnInfo.name)) in Hnil.
    by rewrite profile_names in Hnil.
  - intros Hp. unfold analyzeColumns. by rewrite Hp.
Qed.

(** X2: [analyzeColumns] gives the empty list exactly when the trimmed text
    has fewer than two lines.  Otherwise it gives one profile for every field
    of the header line, in order and under the cleaned name of the field, so
    at least one, and [totalRows] of each is the number of the lines after
    the header, at least one. *)
Theorem analyzeColumns_shape (csvText : jsstring) :
  (analyzeColumns csvText = [] <-> parseTable csvText = None)
  /\ (forall headers rows, parseTable csvText = Some (headers, rows) ->
        map ColumnInfo.name (analyzeColumns csvText) = headers
        /\ length (analyzeColumns csvText)
           = length (split comma (hd [] (split nl (trim csvText))))
        /\ 0 < length (analyzeColumns csvText)
        /\ Forall (fun c => ColumnInfo.totalRows c = length rows
                            /\ ColumnInfo.totalRows c
                               = length (split nl (trim csvText)) - 1
                            /\ 0 < ColumnInfo.totalRows c)
             (analyzeColumns csvText)).
Proof.
  assert (Hsome : forall headers rows, parseTable csvText = Some (headers, rows) ->
    analyzeColumns csvText = profile headers rows
    /\ length headers = length (split comma (hd [] (split nl (trim csvText))))
    /\ length rows = length (split nl (trim csvText)) - 1).
  { intros headers rows H. split; [by apply analyzeColumns_profile|].
    unfold parseTable in H.
    destruct (split nl (trim csvText)) as [|first [|second rest]]; try done.
    injection H as <- <-. unfold parseLine. simpl. rewrite !length_map. split; lia. }
  split; [apply analyzeColumns_nil_iff|].
  intros headers rows Hp. destruct (Hsome _ _ Hp) as (Heq & Hlen & Hrows).
  pose proof (parseTable_Some _ _ _ Hp) as [Hh Hr]. rewrite Heq.
  assert (Hl : length (profile headers rows) = length headers).
  { unfold profile. apply length_imap. }
  split; [apply profile_names|]. split; [by rewrite Hl|].
  split; [rewrite Hl; destruct headers; [done|simpl; lia]|].
  apply Forall_forall. intros c Hc.
  apply list_elem_of_lookup in Hc as [i Hi].
  apply profile_lookup in Hi as (h & _ & ->).
  rewrite profileColumn_totalRows.
  split; [done|]. split; [done|]. destruct rows; [done|simpl; lia].
Qed.

(** X3: the type of a column in the profiler of [src/App.tsx].  It is
    Numeric exactly when the column has a cell that is not missing and every
    such cell is numeric; failing that, it is Boolean exactly when the column
    has one or two distinct values that are not missing, whatever they are;
    otherwise it is String.  The statistics are numeric exactly for the type
    Numeric. *)
Theorem profile_type_rule (headers : list jsstring) (rows : list (list jsstring))
    (i : nat) (c : ColumnInfo.t) :
  profile headers rows !! i = Some c ->
  let cells := columnCells rows i in
  let numeric := 0 < classified rows i
                 /\ forall v, v ∈ cells -> nonblank v = true -> isNumeric v = true in
  let few := 0 < classified rows i
             /\ length (remove_dups (List.filter nonblank cells)) <= 2 in
  (ColumnInfo.type c = TNumeric <-> numeric)
  /\ (ColumnInfo.type c = TBoolean <-> ~ numeric /\ few)
  /\ (ColumnInfo.type c = TString <-> ~ numeric /\ ~ few)
  /\ ((exists s, ColumnInfo.stats c = Some (SNumeric s)) <-> ColumnInfo.type c = TNumeric).
Proof.
  intros (header & _ & ->)%profile_lookup cells numeric few.
  rewrite profileColumn_type_cases, profileColumn_stats_cases. fold cells.
  assert (Hnum : forallb isNumeric (List.filter nonblank cells)
                 && (0 <? length (List.filter nonblank cells)) = true <-> numeric).
  { rewrite andb_true_iff, Nat.ltb_lt, forallb_filter_nonblank. unfold numeric, classified.
    fold cells. tauto. }
  assert (Hfew : (length (remove_dups (List.filter nonblank cells)) <=? 2)
                 && (0 <? length (List.filter nonblank cells)) = true <-> few).
  { rewrite andb_true_iff, Nat.ltb_lt, Nat.leb_le. unfold few, classified.
    fold cells. tauto. }
  clearbody numeric few.
  destruct (forallb isNumeric _ && _) eqn:E1.
  - assert numeric by by apply Hnum.
    split_and!; split; try done; try tauto; eauto.
  - assert (~ numeric) by (rewrite <- Hnum; congruence).
    destruct ((length _ <=? 2) && _) eqn:E2.
    + assert few by by apply Hfew.
      split_and!; split; try done; try tauto. by intros [s [=]].
    + assert (~ few) by (rewrite <- Hfew; congruence).
      split_and!; split; try done; try tauto. by intros [s [=]].
Qed.

Lemma profile_type_rule_witness :
  let headers := [str "n"; str "w"] in
  let rows := [[str "1"; str "pear"]; [str "2.5"; str "plum"]] in
  exists c, profile headers rows !! 1 = Some c /\ ColumnInfo.type c = TBoolean.
Proof.
  eexists. split; [reflexivity|].
  destruct (profile_type_rule [str "n"; str "w"]
    [[str "1"; str "pear"]; [str "2.5"; str "plum"]] 1 _ eq_refl)
    as (_ & Hbool & _).
  apply Hbool. split.
  - intros [_ Hnum]. specialize (Hnum (str "pear")).
    assert (isNumeric (str "pear") = true) as Hf; [|vm_compute in Hf; discriminate].
    apply Hnum; [|reflexivity]. apply (bool_decide_unpack _). reflexivity.
  - split; vm_compute; lia.
Defined.

(** X4: [missingCount] of a profile is the number of the cells of the column
    that are there and blank, and [hasMissingValues] holds exactly when such a
    cell exists; a row too short to reach the column counts for nothing. *)
Theorem profile_missingCount (headers : list jsstring) (rows : list (list jsstring))
    (i : nat) (c : ColumnInfo.t) :
  profile headers rows !! i = Some c ->
  ColumnInfo.missingCount c
  = length (List.filter (fun v => negb (nonblank v)) (columnCells rows i))
  /\ (ColumnInfo.hasMissingValues c = true
      <-> exists row v, row ∈ rows /\ row !! i = Some v /\ nonblank v = false).
Proof.
  intros (header & _ & ->)%profile_lookup.
  assert (Hm : ColumnInfo.missingCount (profileColumn rows i header)
    = length (List.filter (fun v => negb (nonblank v)) (columnCells rows i))).
  { rewrite profileColumn_missingCount, filter_negb_length. done. }
  split; [exact Hm|].
  assert (Hh : ColumnInfo.hasMissingValues (profileColumn rows i header)
               = (0 <? ColumnInfo.missingCount (profileColumn rows i header))).
  { unfold profileColumn. by destruct (_ && _). }
  rewrite Hh, Nat.ltb_lt, Hm, filter_length_pos. split.
  - intros (v & Hv & Hb). unfold columnCells in Hv.
    apply list_elem_of_omap in Hv as (row & Hrow & Hlook).
    exists row, v. repeat split; try done. by destruct (nonblank v).
  - intros (row & v & Hrow & Hlook & Hb). exists v. split; [|by rewrite Hb].
    unfold columnCells. apply list_elem_of_omap. by exists row.
Qed.

Lemma profile_missingCount_witness :
  let headers := [str "a"; str "b"] in
  let rows := [[str "1"; str " "]; [str "2"]] in
  exists c, profile headers rows !! 1 = Some c /\ ColumnInfo.missingCount c = 1.
Proof.
  eexists. split; [reflexivity|].
  exact (proj1 (profile_missingCount [str "a"; str "b"]
                  [[str "1"; str " "]; [str "2"]] 1 _ eq_refl)).
Defined.

(** ** The issues of the validator *)

Section Issues.

Lemma elem_of_concat_imap {A B} (f : nat -> A -> list B) (l : list A) (x : B) :
  x ∈ concat (imap f l) <-> exists i y, l !! i = Some y /\ x ∈ f i y.
Proof.
  revert f. induction l as [|a l IH]; intros f.
  - simpl. split; [by intros ?%elem_of_nil|]. by intros (i & y & ? & _).
  - rewrite imap_cons. simpl. rewrite elem_of_app, IH. split.
    + intros [H|(i & y & Hi & H)]; [by exists 0, a|by exists (S i), y].
    + intros ([|i] & y & Hi & H); simpl in Hi.
      * injection Hi as ->. by left.
      * right. by exists i, y.
Qed.

Variables headers numericColumns : list jsstring.

(** The issues of a row of the right length: one for every offending cell. *)
Lemma validateRow_mixed (rowIndex : nat) (row : list jsstring)
    (issue : ValidationIssue.t) :
  length row = length headers ->
  issue ∈ validateRow headers numericColumns rowIndex row
  <-> exists j header cell,
        offending headers numericColumns row j header cell
        /\ issue = mixedTypeIssue header rowIndex cell.
Proof.
  intros Hlen. unfold validateRow. rewrite Hlen, Nat.eqb_refl. simpl.
  rewrite elem_of_concat_imap. unfold offending. split.
  - intros (j & cell & Hj & Hin). exists j.
    destruct (headers !! j) as [header|] eqn:Hh; [|by apply elem_of_nil in Hin].
    destruct (bool_decide (header ∈ numericColumns)) eqn:Hnum;
      [|by apply elem_of_nil in Hin].
    destruct (nonblank cell) eqn:Hnb; [|by apply elem_of_nil in Hin].
    destruct (isNumeric cell) eqn:Hn; [by apply elem_of_nil in Hin|].
    simpl in Hin. apply list_elem_of_singleton in Hin as ->.
    apply bool_decide_eq_true in Hnum. by exists header, cell.
  - intros (j & header & cell & (Hj & Hh & Hnum & Hnb & Hn) & ->).
    exists j, cell. split; [done|]. rewrite Hh, Hnb, Hn.
    rewrite bool_decide_eq_true_2 by done. simpl. by left.
Qed.

Lemma validateRow_elem (rowIndex : nat) (row : list jsstring)
    (issue : ValidationIssue.t) :
  issue ∈ validateRow headers numericColumns rowIndex row
  <-> (length row <> length headers
       /\ issue = rowLengthIssue (length headers) rowIndex (length row))
      \/ (length row = length headers
          /\ exists j header cell,
               offending headers numericColumns row j header cell
               /\ issue = mixedTypeIssue header rowIndex cell).
Proof.
  destruct (decide (length row = length headers)) as [Heq|Hne].
  - rewrite validateRow_mixed by done. split; [by right|]. by intros [[? _]|[_ ?]].
  - rewrite validateRow_short by done. rewrite list_elem_of_singleton.
    split; [by left|]. by intros [[_ ?]|[? _]].
Qed.

Lemma validateRow_nil (rowIndex : nat) (row : list jsstring) :
  validateRow headers numericColumns rowIndex row = []
  <-> length row = length headers
      /\ forall j header cell, ~ offending headers numericColumns row j header cell.
Proof.
  split.
  - intros Hnil. destruct (decide (length row = length headers)) as [Heq|Hne].
    + split; [done|]. intros j header cell Hoff.
      assert (mixedTypeIssue header rowIndex cell
              ∈ validateRow headers numericColumns rowIndex row) as Hin.
      { apply validateRow_mixed; [done|]. by exists j, header, cell. }
      rewrite Hnil in Hin. by apply elem_of_nil in Hin.
    + by rewrite validateRow_short in Hnil.
  - intros [Heq Hnone].
    destruct (validateRow headers numericColumns rowIndex row) as [|issue l] eqn:E;
      [done|].
    assert (issue ∈ validateRow headers numericColumns rowIndex row) as Hin
      by (rewrite E; by left).
    apply validateRow_mixed in Hin as (j & header & cell & Hoff & _); [|done].
    by destruct (Hnone j header cell).
Qed.

End Issues.

Lemma numericColumnNames_elem (columnInfo : list ColumnInfo.t) (header : jsstring) :
  header ∈ numericColumnNames columnInfo
  <-> exists c, c ∈ columnInfo /\ ColumnInfo.name c = header
                /\ ColumnInfo.type c = TNumeric.
Proof.
  unfold numericColumnNames. rewrite list_elem_of_In, in_map_iff. split.
  - intros (c & Hname & [Hc Ht]%List.filter_In). exists c.
    apply bool_decide_eq_true in Ht. by rewrite list_elem_of_In.
  - intros (c & Hc & Hname & Ht). exists c. split; [done|].
    apply List.filter_In. rewrite <- list_elem_of_In.
    split; [done|]. by apply bool_decide_eq_true.
Qed.

(** An issue of the validator is an issue of one of its rows. *)
Lemma validateCsvData_elem (headers : list jsstring)
    (rows : list (list jsstring)) (columnInfo : list ColumnInfo.t)
    (issue : ValidationIssue.t) :
  issue ∈ validateCsvData headers rows columnInfo ->
  exists i row, rows !! i = Some row
    /\ ((length row <> length headers
         /\ issue = rowLengthIssue (length headers) i (length row))
        \/ (length row = length headers
            /\ exists j header cell,
                 offending headers (numericColumnNames columnInfo) row j header cell
                 /\ issue = mixedTypeIssue header i cell)).
Proof.
  unfold validateCsvData. fold (numericColumnNames columnInfo).
  rewrite elem_of_concat_imap.
  intros (i & row & Hi & Hin). exists i, row. split; [done|].
  by apply validateRow_elem.
Qed.

(** X5: what the validator reports.  An issue is in the list exactly when it
    is the issue of the row length of a row whose cell count differs from the
    header count, or the issue of a mixed type of a cell, not blank and not
    numeric, that stands in a row of the right length under a header that
    names a column of the type Numeric; both carry the number of the row,
    its index plus two. *)
Theorem validateCsvData_issues (headers : list jsstring)
    (rows : list (list jsstring)) (columnInfo : list ColumnInfo.t)
    (issue : ValidationIssue.t) :
  issue ∈ validateCsvData headers rows columnInfo
  <-> exists i row, rows !! i = Some row
      /\ ((length row <> length headers
           /\ issue = rowLengthIssue (length headers) i (length row))
          \/ (length row = length headers
              /\ exists j header cell,
                   offending headers (numericColumnNames columnInfo) row j header cell
                   /\ issue = mixedTypeIssue header i cell)).
Proof.
  unfold validateCsvData. fold (numericColumnNames columnInfo).
  rewrite elem_of_concat_imap. split.
  - intros (i & row & Hi & Hin). exists i, row. split; [done|].
    by apply validateRow_elem.
  - intros (i & row & Hi & H). exists i, row. split; [done|].
    by apply validateRow_elem.
Qed.

(** No row reports, so the validator reports nothing. *)
Lemma validateCsvData_nil (headers : list jsstring)
    (rows : list (list jsstring)) (columnInfo : list ColumnInfo.t) :
  (forall i row, rows !! i = Some row ->
     length row = length headers
     /\ forall j header cell,
          ~ offending headers (numericColumnNames columnInfo) row j header cell) ->
  validateCsvData headers rows columnInfo = [].
Proof.
  intros Hall.
  destruct (validateCsvData headers rows columnInfo) as [|issue l] eqn:E; [done|].
  assert (issue ∈ validateCsvData headers rows columnInfo) as Hin
    by (rewrite E; by left).
  apply validateCsvData_elem in Hin as (i & row & Hi & H).
  destruct (Hall i row Hi) as [Hlen Hnone].
  destruct H as [[Hne _]|[_ (j & header & cell & Hoff & _)]]; [done|].
  by destruct (Hnone j header cell).
Qed.

(** X6: the validator reports nothing exactly when every row has as many
    cells as the header and no cell under a header that names a numeric
    column is both not blank and not numeric. *)
Theorem validateCsvData_clean (headers : list jsstring)
    (rows : list (list jsstring)) (columnInfo : list ColumnInfo.t) :
  validateCsvData headers rows columnInfo = []
  <-> forall i row, rows !! i = Some row ->
        length row = length headers
        /\ forall j header cell,
             ~ offending headers (numericColumnNames columnInfo) row j header cell.
Proof.
  split.
  - intros Hnil i row Hi. apply (validateRow_nil _ _ i).
    destruct (validateRow headers (numericColumnNames columnInfo) i row)
      as [|issue l] eqn:E; [done|].
    assert (issue ∈ validateCsvData headers rows columnInfo) as Hin.
    { unfold validateCsvData. fold (numericColumnNames columnInfo).
      apply elem_of_concat_imap. exists i, row. split; [done|]. rewrite E. by left. }
    rewrite Hnil in Hin. by apply elem_of_nil in Hin.
  - apply validateCsvData_nil.
Qed.

(** X7: on a table with distinct header names, checked against its own
    profiles, the check of the mixed types never reports: a column has the
    type Numeric only when all its cells that are not blank are numeric.  So
    every issue is one of the row length, and a table whose rows all have the
    cell count of the header has no issue. *)
Theorem validateCsvData_own_profile (headers : list jsstring)
    (rows : list (list jsstring)) :
  NoDup headers ->
  Forall (fun issue => ValidationIssue.type issue = INCONSISTENT_ROW_LENGTH)
    (validateCsvData headers rows (profile headers rows))
  /\ (Forall (fun row : list jsstring => length row = length headers) rows ->
      validateCsvData headers rows (profile headers rows) = []).
Proof.
  intros Hnd.
  assert (Hnone : forall i row j header cell, rows !! i = Some row ->
    ~ offending headers (numericColumnNames (profile headers rows)) row j header cell).
  { intros i row j header cell Hi (Hj & Hh & Hnum & Hnb & Hn).
    apply numericColumnNames_elem in Hnum as (c & Hc & Hname & Ht).
    apply list_elem_of_lookup in Hc as [k Hk].
    pose proof (profile_lookup _ _ _ _ Hk) as (hk & Hhk & ->).
    rewrite profileColumn_name in Hname. subst hk.
    assert (k = j) as -> by (eapply NoDup_lookup; eauto).
    rewrite profileColumn_type_cases in Ht. cbv zeta in Ht.
    destruct (forallb isNumeric _ && _) eqn:E.
    2:{ destruct ((length _ <=? 2) && _) in Ht; discriminate. }
    apply andb_true_iff in E as [E _].
    assert (isNumeric cell = true); [|congruence].
    apply (proj1 (forallb_filter_nonblank _) E); [|done].
    unfold columnCells. apply list_elem_of_omap. exists row.
    split; [|done]. apply list_elem_of_lookup. by exists i. }
  split.
  - apply Forall_forall. intros issue Hin.
    apply validateCsvData_elem in Hin as (i & row & Hi & H).
    destruct H as [[_ ->]|[_ (j & header & cell & Hoff & _)]]; [done|].
    by destruct (Hnone i row j header cell Hi).
  - intros Hall. apply validateCsvData_nil. intros i row Hi. split.
    + by apply (proj1 (Forall_lookup _ _) Hall i row).
    + intros j header cell. by apply (Hnone i row).
Qed.

Lemma validateCsvData_own_profile_witness :
  let headers := [str "n"; str "w"] in
  let rows := [[str "1"; str "x"]; [str "2"; []]] in
  validateCsvData headers rows (profile headers rows) = [].
Proof.
  refine (proj2 (validateCsvData_own_profile [str "n"; str "w"]
                   [[str "1"; str "x"]; [str "2"; []]] _) _).
  - apply (bool_decide_unpack _). reflexivity.
  - repeat constructor.
Defined.

Lemma constant_sorted (a : nat) (l : list nat) :
  Forall (fun n => n = a) l -> StronglySorted le l.
Proof.
  induction 1 as [|n l -> Hl IH]; constructor; [done|].
  eapply Forall_impl; [exact Hl|]. simpl. lia.
Qed.

Lemma issues_sorted_from (headers numericColumns : list jsstring) (k : nat)
    (rows : list (list jsstring)) :
  StronglySorted le
    (map ValidationIssue.row
       (concat (imap (fun j => validateRow headers numericColumns (k + j)) rows)))
  /\ Forall (fun n => k + 2 <= n)
       (map ValidationIssue.row
          (concat (imap (fun j => validateRow headers numericColumns (k + j)) rows))).
Proof.
  revert k. induction rows as [|row rows IH]; intros k.
  - split; constructor.
  - rewrite imap_cons. simpl. rewrite map_app.
    assert (Hshift : imap ((fun j => validateRow headers numericColumns (k + j)) ∘ S) rows
                     = imap (fun j => validateRow headers numericColumns (S k + j)) rows).
    { apply imap_ext. intros j x _. simpl. f_equal. lia. }
    rewrite Hshift. destruct (IH (S k)) as [IHs IHb].
    pose proof (validateRow_row headers numericColumns (k + 0) row) as Hrow.
    assert (Hhere : Forall (fun n => n = k + 2)
              (map ValidationIssue.row (validateRow headers numericColumns (k + 0) row))).
    { apply Forall_fmap. eapply Forall_impl; [exact Hrow|]. simpl. intros x ->. lia. }
    split.
    + apply StronglySorted_app. split_and!.
      * intros x1 x2 Hx1 Hx2.
        apply (proj1 (Forall_forall _ _) Hhere) in Hx1.
        apply (proj1 (Forall_forall _ _) IHb) in Hx2. lia.
      * by apply (constant_sorted (k + 2)).
      * exact IHs.
    + apply Forall_app. split.
      * eapply Forall_impl; [exact Hhere|]. simpl. lia.
      * eapply Forall_impl; [exact IHb|]. simpl. lia.
Qed.

(** X8: the issues come in the order of the rows.  The row numbers of the
    list never decrease, and each is between 2, the first data row, and the
    number of data rows plus one. *)
Theorem validateCsvData_order (headers : list jsstring)
    (rows : list (list jsstring)) (columnInfo : list ColumnInfo.t) :
  StronglySorted le
    (map ValidationIssue.row (validateCsvData headers rows columnInfo))
  /\ Forall (fun issue => 2 <= ValidationIssue.row issue
                          /\ ValidationIssue.row issue <= length rows + 1)
       (validateCsvData headers rows columnInfo).
Proof.
  split.
  - exact (proj1 (issues_sorted_from headers (numericColumnNames columnInfo) 0 rows)).
  - apply Forall_forall. intros issue Hin.
    apply validateCsvData_elem in Hin as (i & row & Hi & H).
    apply lookup_lt_Some in Hi.
    destruct H as [[_ ->]|[_ (j & header & cell & _ & ->)]]; simpl; lia.
Qed.

(** ** The handlers: uploads, answers and the states they reach *)

Section Handlers.

Variable Number_toString : number -> jsstring.

Lemma formatColumn_profile rows i header :
  is_Some (formatColumn Number_toString (profileColumn rows i header)).
Proof.
  unfold formatColumn, statsString.
  rewrite profileColumn_stats_cases, profileColumn_type_cases. cbv zeta.
  destruct (forallb isNumeric _ && _); simpl; [done|].
  by destruct ((length _ <=? 2) && _).
Qed.

(** The texts of the profiles of a table are always there: the payload of
    every profile fits its type. *)
Lemma formatColumnAnalysis_profile headers rows :
  is_Some (formatColumnAnalysis Number_toString (profile headers rows)).
Proof.
  unfold formatColumnAnalysis. apply fmap_is_Some, mapM_is_Some_2.
  apply Forall_forall. intros c Hc.
  apply list_elem_of_lookup in Hc as [i Hi].
  apply profile_lookup in Hi as (h & _ & ->). apply formatColumn_profile.
Qed.

Lemma addMessage_fields m st :
  csvData (addMessage m st) = csvData st
  /\ uploadedFile (addMessage m st) = uploadedFile st
  /\ isLoading (addMessage m st) = isLoading st
  /\ messages (addMessage m st) = messages st ++ [m].
Proof. done. Qed.

End Handlers.

(** The three ways an upload ends. *)
Lemma handleFileUpload_short (Number_toString : number -> jsstring)
    (fileName text : jsstring) (st : AppState) :
  parseTable text = None ->
  exists notice,
    handleFileUpload Number_toString fileName text st
    = Some (addMessage (Message.mk system notice None) st).
Proof.
  intros Hp. unfold handleFileUpload. destruct text as [|c text].
  - by eexists.
  - rewrite Hp. by eexists.
Qed.

Lemma handleFileUpload_invalid (Number_toString : number -> jsstring)
    (fileName text : jsstring) (st : AppState) headers rows issue issues :
  parseTable text = Some (headers, rows) ->
  validateCsvData headers rows (analyzeColumns text) = issue :: issues ->
  handleFileUpload Number_toString fileName text st
  = Some (setCsvData None
            (setUploadedFile None
               (addMessage
                  (Message.mk ai (formatValidationIssues (issue :: issues)) None)
                  st))).
Proof.
  intros Hp Hv. unfold handleFileUpload. destruct text as [|c text]; [done|].
  rewrite Hp, Hv. rewrite bool_decide_eq_false_2; [done|].
  intros Hl%nil_length_inv. apply analyzeColumns_nil_iff in Hl. congruence.
Qed.

Lemma handleFileUpload_valid (Number_toString : number -> jsstring)
    (fileName text : jsstring) (st : AppState) headers rows :
  parseTable text = Some (headers, rows) ->
  validateCsvData headers rows (analyzeColumns text) = [] ->
  exists st' added,
    handleFileUpload Number_toString fileName text st = Some st'
    /\ isLoading st' = isLoading st
    /\ added <> [] /\ messages st' = messages st ++ added
    /\ csvData st' = Some text
    /\ uploadedFile st' = Some (UploadedFile.mk fileName (analyzeColumns text)).
Proof.
  intros Hp Hv. unfold handleFileUpload. destruct text as [|c text]; [done|].
  rewrite Hp, Hv. rewrite bool_decide_eq_false_2.
  2:{ intros Hl%nil_length_inv. apply analyzeColumns_nil_iff in Hl. congruence. }
  pose proof (analyzeColumns_profile _ _ _ Hp) as Heq. simpl.
  destruct (formatColumnAnalysis_profile Number_toString headers rows)
    as [analysisText Ha].
  rewrite Heq, Ha. rewrite <- Heq.
  destruct (0 <? length (List.filter ColumnInfo.hasMissingValues _));
    eexists; eexists; (split; [done|]); (split; [done|]);
    simpl; rewrite <- ?app_assoc; (split; [|done]); done.
Qed.

(** X9: the outcome of an upload; the handler never throws.  A text of fewer
    than two lines (the empty text too) leaves the stored dataset and profiles
    as they were.  A table on which the validator reports an issue clears
    both, whatever was stored before.  Any other table is stored as the text
    read, with the name of the file and the profiles of that text.  The
    branch for an empty list of columns is never taken.  The messages shown
    before stay, and at least one is added. *)
Theorem handleFileUpload_outcome (Number_toString : number -> jsstring)
    (fileName text : jsstring) (st : AppState) :
  exists st', handleFileUpload Number_toString fileName text st = Some st'
    /\ isLoading st' = isLoading st
    /\ (exists added, added <> [] /\ messages st' = messages st ++ added)
    /\ match parseTable text with
       | None => csvData st' = csvData st /\ uploadedFile st' = uploadedFile st
       | Some (headers, rows) =>
           match validateCsvData headers rows (analyzeColumns text) with
           | [] => csvData st' = Some text
                   /\ uploadedFile st'
                      = Some (UploadedFile.mk fileName (analyzeColumns text))
                   /\ analyzeColumns text <> []
           | _ :: _ => csvData st' = None /\ uploadedFile st' = None
           end
       end.
Proof.
  destruct (parseTable text) as [[headers rows]|] eqn:Hp.
  - destruct (validateCsvData headers rows (analyzeColumns text))
      as [|issue issues] eqn:Hv.
    + destruct (handleFileUpload_valid Number_toString fileName text st _ _ Hp Hv)
        as (st' & added & Hup & Hl & Hne & Hm & Hc & Hu).
      exists st'. split; [done|]. split; [done|]. split; [by exists added|].
      split; [done|]. split; [done|].
      intros Hnil%analyzeColumns_nil_iff. congruence.
    + rewrite (handleFileUpload_invalid Number_toString fileName text st _ _ _ _ Hp Hv).
      eexists. split; [done|]. split; [done|]. split; [|done].
      eexists. split; [|done]. done.
  - destruct (handleFileUpload_short Number_toString fileName text st Hp)
      as [notice ->].
    eexists. split; [done|]. split; [done|]. split; [|done].
    eexists. split; [|done]. done.
Qed.

(** [handleSend] is the three moments in a row. *)
Lemma handleSend_moments gemini parse (st : AppState) (text : jsstring) :
  handleSend gemini parse st text
  = if isLoading st || negb (nonblank text) then Some st
    else match gemini text
                 (match uploadedFile st with
                  | Some f => UploadedFile.columns f
                  | None => []
                  end) (csvData st) with
         | Some aiResponse => sendAnswer parse (sendStart st text) aiResponse
         | None => Some (sendFailure (sendStart st text))
         end.
Proof. done. Qed.

Lemma handleSend_steps Number_toString gemini parse (st st' : AppState) text :
  handleSend gemini parse st text = Some st' ->
  rtc (step Number_toString) st st'.
Proof.
  rewrite handleSend_moments. destruct (isLoading st) eqn:Hl; simpl.
  { intros [= <-]. done. }
  destruct (nonblank text) eqn:Hnb; simpl; [|intros [= <-]; done].
  destruct (gemini _ _ _) as [aiResponse|].
  - intros Hans. eapply rtc_l; [by apply step_send|].
    apply rtc_once. by eapply step_answer.
  - intros [= <-]. eapply rtc_l; [by apply step_send|].
    apply rtc_once. apply step_failure.
Qed.

(** X10: the state that uploads, messages sent, answers and failures of the
    service reach, in any order and number.  The stored profiles are the
    profiles of the stored dataset, a dataset is stored exactly when a file
    is, and the greeting is still the first message. *)
Theorem reachable_coherent (Number_toString : number -> jsstring) (st : AppState) :
  rtc (step Number_toString) initialState st ->
  coherent st /\ messages initialState `prefix_of` messages st.
Proof.
  revert st. apply rtc_ind_r.
  { split; done. }
  intros st st' _ Hstep (Hcoh & Hpre). destruct Hstep as
    [fileName text st st' Hup | text st Hl Hnb | parse aiResponse st st' Hans | st].
  - destruct (parseTable text) as [[headers rows]|] eqn:Hp.
    + destruct (validateCsvData headers rows (analyzeColumns text))
        as [|issue issues] eqn:Hv.
      * destruct (handleFileUpload_valid Number_toString fileName text st _ _ Hp Hv)
          as (st'' & added & Heq & _ & _ & Hm & Hc & Hu).
        rewrite Hup in Heq. injection Heq as <-. split.
        -- unfold coherent. by rewrite Hc, Hu.
        -- rewrite Hm. by apply prefix_app_r.
      * rewrite (handleFileUpload_invalid _ _ _ _ _ _ _ _ Hp Hv) in Hup.
        injection Hup as <-. split; [done|]. simpl. by apply prefix_app_r.
    + destruct (handleFileUpload_short Number_toString fileName text st Hp)
        as [notice Heq].
      rewrite Hup in Heq. injection Heq as ->. split; [done|].
      simpl. by apply prefix_app_r.
  - split; [done|]. simpl. by apply prefix_app_r.
  - unfold sendAnswer, respond in Hans.
    destruct (newCsvData (extract parse aiResponse)) as [newCsv|].
    + destruct (uploadedFile st) as [prev|]; [|done]. simpl in Hans.
      injection Hans as <-. split; [done|].
      simpl. rewrite <- !app_assoc. by apply prefix_app_r.
    + simpl in Hans. injection Hans as <-. split; [done|].
      simpl. by apply prefix_app_r.
  - split; [done|]. simpl. by apply prefix_app_r.
Qed.

(** An upload, a message and the answer of the service with a new dataset. *)
Lemma reachable_coherent_witness :
  csvData state_answered = Some (str "a,b" ++ nl :: str "1,2")
  /\ coherent state_answered.
Proof.
  split; [reflexivity|].
  refine (proj1 (reachable_coherent (fun _ => str "?") state_answered _)).
  eapply rtc_l.
  { apply (step_upload _ (str "d.csv") csv_regular initialState state_uploaded).
    vm_compute. reflexivity. }
  eapply rtc_l.
  { apply (step_send _ (str "clean") state_uploaded); reflexivity. }
  apply rtc_once.
  apply (step_answer _ JSON.parse response_sample _ state_answered).
  vm_compute. reflexivity.
Defined.

(** ** The response handler: what changes and when *)

Section Responses.

Variable JSON_parse : jsstring -> option JSON.value.

Lemma extract_newCsvData (aiResponse : jsstring) :
  newCsvData (extract JSON_parse aiResponse)
  = trim <$> group1 (regex_match csv_tag aiResponse).
Proof.
  unfold extract. destruct (group1 (regex_match csv_tag aiResponse)); simpl;
    destruct (group1 (regex_match json_tag aiResponse)) as [jb|]; simpl;
    try destruct (JSON_parse jb); done.
Qed.

Lemma extract_chartData (aiResponse : jsstring) :
  chartData (extract JSON_parse aiResponse)
  = group1 (regex_match json_tag aiResponse) ≫= JSON_parse.
Proof.
  unfold extract. destruct (group1 (regex_match csv_tag aiResponse)); simpl;
    destruct (group1 (regex_match json_tag aiResponse)) as [jb|]; simpl;
    try destruct (JSON_parse jb); done.
Qed.

Lemma respond_fields (st st' : AppState) (aiResponse : jsstring) :
  respond JSON_parse st aiResponse = Some st' ->
  isLoading st' = isLoading st
  /\ (exists added, messages st' = messages st ++ added
        /\ last added
           = Some (Message.mk ai (responseText (extract JSON_parse aiResponse))
                     (orUndefined (chartData (extract JSON_parse aiResponse)))))
  /\ match newCsvData (extract JSON_parse aiResponse) with
     | None => csvData st' = csvData st /\ uploadedFile st' = uploadedFile st
     | Some newCsv =>
         exists prev, uploadedFile st = Some prev
           /\ csvData st' = Some newCsv
           /\ uploadedFile st'
              = Some (UploadedFile.mk (UploadedFile.name prev) (analyzeColumns newCsv))
     end.
Proof.
  unfold respond. destruct (newCsvData _) as [newCsv|].
  - destruct (uploadedFile st) as [prev|] eqn:Hprev; [|done].
    intros [= <-]. split; [done|]. split; [|by exists prev].
    eexists. simpl. rewrite <- app_assoc. split; [done|]. done.
  - intros [= <-]. split; [done|]. split; [|done].
    eexists. split; [done|]. done.
Qed.

Lemma find_sub_plain_None (p x : jsstring) :
  plain x = true -> find_sub (backtick :: p) x = None.
Proof.
  intros Hx. rewrite <- (app_nil_r x), find_sub_plain by done. done.
Qed.

Lemma regex_match_plain (tag x : jsstring) :
  plain x = true -> regex_match tag x = None.
Proof.
  intros Hx. unfold regex_match.
  rewrite fence_open_eq, find_sub_plain_None by done. done.
Qed.

End Responses.

(** X11: what [handleSend] changes.  The messages shown before stay, and a
    handler that was not loading is not loading afterwards.  The stored
    dataset and profiles change only when the service answers with a CSV
    block whose body is not empty: then the dataset is the trimmed body, the
    profiles are the profiles of it and the name of the file is kept. *)
Theorem handleSend_frame
    (gemini : jsstring -> list ColumnInfo.t -> option jsstring -> option jsstring)
    (JSON_parse : jsstring -> option JSON.value)
    (st st' : AppState) (text : jsstring) :
  handleSend gemini JSON_parse st text = Some st' ->
  messages st `prefix_of` messages st'
  /\ (isLoading st = false -> isLoading st' = false)
  /\ ((csvData st' = csvData st /\ uploadedFile st' = uploadedFile st)
      \/ exists aiResponse body prev,
           gemini text (UploadedFile.columns prev) (csvData st) = Some aiResponse
           /\ group1 (regex_match csv_tag aiResponse) = Some body
           /\ uploadedFile st = Some prev
           /\ csvData st' = Some (trim body)
           /\ uploadedFile st'
              = Some (UploadedFile.mk (UploadedFile.name prev)
                        (analyzeColumns (trim body)))).
Proof.
  rewrite handleSend_moments.
  destruct (isLoading st || negb (nonblank text)) eqn:Hguard.
  { intros [= <-]. split; [done|]. split; [done|]. by left. }
  destruct (gemini _ _ _) as [aiResponse|] eqn:Hg.
  2:{ intros [= <-]. split; [|split; [done|by left]].
      simpl. rewrite <- app_assoc. by apply prefix_app_r. }
  unfold sendAnswer.
  destruct (respond JSON_parse (sendStart st text) aiResponse) as [st1|] eqn:Hr;
    [|done].
  intros [= <-]. apply respond_fields in Hr as (_ & (added & Hm & _) & Hdata).
  split; [|split; [done|]].
  - simpl. rewrite Hm. simpl. rewrite <- app_assoc. by apply prefix_app_r.
  - rewrite extract_newCsvData in Hdata.
    destruct (group1 (regex_match csv_tag aiResponse)) as [body|] eqn:Hb; simpl in *.
    + right. destruct Hdata as (prev & Hprev & Hc & Hu).
      exists aiResponse, body, prev. rewrite Hprev in Hg. done.
    + by left.
Qed.

Lemma handleSend_frame_witness :
  exists st', handleSend (fun _ _ _ => Some reply_unusable) JSON.parse state_before
                (str "clean it") = Some st'
    /\ csvData st' = Some (str "abc")
    /\ isLoading st' = false.
Proof.
  destruct (handleSend (fun _ _ _ => Some reply_unusable) JSON.parse state_before
              (str "clean it")) as [st'|] eqn:Hs; [|vm_compute in Hs; discriminate].
  exists st'. split; [done|].
  destruct (handleSend_frame _ _ _ _ _ Hs) as (_ & Hl & Hd).
  split; [|by apply Hl].
  destruct Hd as [[Hc _]|(r & body & prev & [= <-] & Hb & _ & Hc & _)].
  - revert Hc. injection Hs as <-. discriminate.
  - rewrite Hc. injection Hb as <-. reflexivity.
Defined.

(** X12: the handler stops in one case only.  The part that reads a response
    fails exactly when the response carries a CSV block with a body that is
    not empty while no file is stored: the update of the profiles reads the
    name of a file that is not there. *)
Theorem respond_fails_iff (JSON_parse : jsstring -> option JSON.value)
    (st : AppState) (aiResponse : jsstring) :
  respond JSON_parse st aiResponse = None
  <-> is_Some (group1 (regex_match csv_tag aiResponse)) /\ uploadedFile st = None.
Proof.
  unfold respond. rewrite extract_newCsvData.
  destruct (group1 (regex_match csv_tag aiResponse)) as [body|]; simpl.
  - destruct (uploadedFile st) as [prev|].
    + split; [done|]. by intros [_ ?].
    + split; [|done]. intros _. split; [by eexists|done].
  - split; [done|]. by intros [[? ?] _].
Qed.

(** X13: a JSON block whose value is no chart.  When the body parses to a
    value that counts as false (null, false, zero, the empty string), the
    block is cut from the text as for a chart, from the response itself or
    from what the cut of a CSV block has left of it, and no chart goes with
    the text: whenever the handler gets to its message, the message carries
    that text and no chart. *)
Theorem respond_falsy_chart (JSON_parse : jsstring -> option JSON.value)
    (aiResponse body : jsstring) (v : JSON.value) :
  group1 (regex_match json_tag aiResponse) = Some body ->
  JSON_parse body = Some v ->
  JSON.truthy v = false ->
  let text :=
    trim (regex_remove json_tag
            (match group1 (regex_match csv_tag aiResponse) with
             | Some _ => trim (regex_remove csv_tag aiResponse)
             | None => aiResponse
             end)) in
  responseText (extract JSON_parse aiResponse) = text
  /\ chartData (extract JSON_parse aiResponse) = Some v
  /\ orUndefined (chartData (extract JSON_parse aiResponse)) = None
  /\ forall st st', respond JSON_parse st aiResponse = Some st' ->
       last (messages st') = Some (Message.mk ai text None).
Proof.
  intros Hjson Hparse Hfalse text.
  assert (He : extract JSON_parse aiResponse
               = mkExtraction text (Some v)
                   (trim <$> group1 (regex_match csv_tag aiResponse))).
  { unfold extract, text. rewrite Hjson, Hparse.
    by destruct (group1 (regex_match csv_tag aiResponse)). }
  rewrite He. simpl. rewrite Hfalse. split_and!; try done.
  intros st st' Hr. apply respond_fields in Hr as (_ & (added & -> & Hlast) & _).
  rewrite He in Hlast. simpl in Hlast. rewrite Hfalse in Hlast.
  rewrite last_app, Hlast. done.
Qed.

(** A response with a CSV block and a JSON block that holds null. *)
Lemma respond_falsy_chart_witness :
  let aiResponse :=
    str "New:" ++ fenced csv_tag (str "a,b") ++ str " none: "
    ++ fenced json_tag (str "null") ++ str " ok " in
  responseText (extract JSON.parse aiResponse) = str "New: none:  ok"
  /\ orUndefined (chartData (extract JSON.parse aiResponse)) = None.
Proof.
  intros aiResponse.
  destruct (respond_falsy_chart JSON.parse aiResponse (str "null") JSON.Null
              eq_refl eq_refl eq_refl) as (Ht & _ & Hc & _).
  split; [|exact Hc]. rewrite Ht. reflexivity.
Defined.

(** X14: the first block of a kind wins.  For a plain text [x], a plain
    body that is not empty and any text [r] behind the block, further blocks
    of the same kind included: the new dataset is the trimmed body of the
    first CSV block, and the chart is what the body of the first JSON block
    parses to, no chart if it does not parse. *)
Theorem extract_first_block (JSON_parse : jsstring -> option JSON.value)
    (x body r : jsstring) :
  plain x = true -> plain body = true -> body <> [] ->
  newCsvData (extract JSON_parse (x ++ fenced csv_tag body ++ r)) = Some (trim body)
  /\ chartData (extract JSON_parse (x ++ fenced json_tag body ++ r)) = JSON_parse body.
Proof.
  intros Hx Hb Hne. rewrite extract_newCsvData, extract_chartData.
  rewrite !regex_match_first by done. by rewrite !group1_Some.
Qed.

Lemma extract_first_block_witness :
  newCsvData (extract JSON.parse
    (str "One:" ++ fenced csv_tag (str "a,b") ++ str " two:" ++ fenced csv_tag (str "c,d")))
  = Some (str "a,b").
Proof.
  refine (proj1 (extract_first_block JSON.parse (str "One:") (str "a,b")
    (str " two:" ++ fenced csv_tag (str "c,d")) eq_refl eq_refl _)).
  discriminate.
Defined.

(** X15: a response without a backtick has no block.  It is shown as it
    came, white space at its ends included (only the cutting of a block
    trims), with no chart, and the dataset is not touched. *)
Theorem extract_plain (JSON_parse : jsstring -> option JSON.value)
    (aiResponse : jsstring) :
  plain aiResponse = true ->
  extract JSON_parse aiResponse = mkExtraction aiResponse None None.
Proof.
  intros Hplain. unfold extract. by rewrite !regex_match_plain.
Qed.

Lemma extract_plain_witness :
  extract JSON.parse (str " The mean is 3. ")
  = mkExtraction (str " The mean is 3. ") None None.
Proof. exact (extract_plain JSON.parse (str " The mean is 3. ") eq_refl). Defined.

(** X16: the dataset the service writes into its prompt is the dataset the
    pattern of the handler reads.  For a plain query and a plain dataset that
    is not empty, the CSV pattern matches the fence of the prompt, its group
    is the dataset, and nothing follows the match. *)
Theorem fullPrompt_round_trip (userQuery data : jsstring) :
  plain userQuery = true -> plain data = true -> data <> [] ->
  regex_match csv_tag (fullPrompt userQuery (Some data))
  = Some (userQuery ++ datasetIntro, data, []).
Proof.
  intros Hq Hd Hne. unfold fullPrompt. destruct data as [|c data]; [done|].
  replace (userQuery ++ datasetIntro ++ str "```csv" ++ nl :: (c :: data) ++ nl :: str "```")
    with ((userQuery ++ datasetIntro) ++ fenced csv_tag (c :: data) ++ []).
  - apply regex_match_first; [|done]. by rewrite plain_app, Hq.
  - unfold fenced. rewrite app_nil_r, <- !app_assoc. done.
Qed.

Lemma fullPrompt_round_trip_witness :
  regex_match csv_tag (fullPrompt (str "Sum it") (Some dataset_before))
  = Some (str "Sum it" ++ datasetIntro, dataset_before, []).
Proof.
  refine (fullPrompt_round_trip (str "Sum it") dataset_before eq_refl eq_refl _).
  discriminate.
Defined.

(** ** What the sampling profiler reports of a column *)

(** X17: what the sampling profiler reports of a column.  Every column it
    returns carries a header that is not the empty text.  Only the first
    fifty rows are read, and the columns that share the name are read
    together: the column is marked as having missing values exactly when one
    of these rows has no cell or a blank cell under a header of that name,
    and its type is the reduction of the set of the classifications of the
    cells that are not blank under a header of that name. *)
Theorem Sampling_analyzeColumns_sample (csvText first : jsstring)
    (rest : list jsstring) (c : Sampling.ColumnInfo) :
  split nl (trim csvText) = first :: rest ->
  c ∈ Sampling.analyzeColumns csvText ->
  Sampling.name c <> [] /\ Sampling.name c ∈ parseLine first
  /\ (Sampling.hasMissingValues c = true
      <-> exists row index,
            row ∈ take 50 rest
            /\ parseLine first !! index = Some (Sampling.name c)
            /\ forall cell, parseLine row !! index = Some cell ->
                            nonblank cell = false)
  /\ exists types,
       NoDup types /\ Sampling.type c = Sampling.finalType types
       /\ forall t, t ∈ types
            <-> exists row index cell,
                  row ∈ take 50 rest
                  /\ parseLine first !! index = Some (Sampling.name c)
                  /\ parseLine row !! index = Some cell
                  /\ nonblank cell = true
                  /\ Sampling.inferDataType cell = t.
Proof.
  intros Hsplit Hc.
  pose proof (analyzeColumns_classified csvText first rest c Hsplit Hc) as Htypes.
  revert Hc Htypes. unfold Sampling.analyzeColumns. rewrite Hsplit.
  destruct (_ || _). { by intros ?%elem_of_nil. }
  set (headers := parseLine first).
  set (columnTypes := foldl _ ∅ headers).
  set (st := foldl _ _ _).
  intros (h & -> & Hh)%list_elem_of_fmap Htypes. simpl.
  apply list_elem_of_In, filter_In in Hh as [Hin%list_elem_of_In Htruthy].
  assert (Hne : h <> []) by (by destruct h).
  split; [done|]. split; [done|]. split; [|exact Htypes].
  rewrite bool_decide_eq_true. unfold st.
  rewrite (foldl_accum (Sampling.visitRow headers) (fun _ => True)
             (fun st => h ∈ st.2)
             (fun row => exists index, headers !! index = Some h
                /\ forall cell, row !! index = Some cell -> nonblank cell = false)).
  - simpl. split.
    + intros [?%elem_of_empty|(row' & (row & -> & Hrow)%list_elem_of_fmap & i & ?)];
        [done|]. by exists row, i.
    + intros (row & i & Hrow & ?). right. exists (parseLine row).
      split; [by apply list_elem_of_fmap_2|]. by exists i.
  - done.
  - intros a row _. by apply visitRow_missing.
  - done.
Qed.

Lemma Sampling_analyzeColumns_sample_witness :
  let csvText := str "a,b,a" ++ nl :: str "1,x," ++ nl :: str "yes,2" in
  let c := Sampling.mkColumnInfo (str "a") TBoolean true in
  Sampling.name c ∈ parseLine (str "a,b,a").
Proof.
  intros csvText c.
  refine (proj1 (proj2 (Sampling_analyzeColumns_sample csvText (str "a,b,a")
    [str "1,x,"; str "yes,2"] c eq_refl _))).
  assert (Heq : Sampling.analyzeColumns csvText
                = c :: tail (Sampling.analyzeColumns csvText))
    by (vm_compute; reflexivity).
  rewrite Heq. left.
Defined.

Lemma is_ws_lower (c : ascii) : is_ws (lower c) = is_ws c.
Proof. by destruct c as [[] [] [] [] [] [] [] []]. Qed.

Lemma ltrim_snoc_nonblank (x : jsstring) (c : ascii) :
  is_ws c = false -> ltrim (x ++ [c]) <> [].
Proof.
  intros Hc. induction x as [|a x IH]; simpl.
  - by rewrite Hc.
  - by destruct (is_ws a).
Qed.

(** A text that starts with a character that is no white space is not
    blank. *)
Lemma nonblank_head (c : ascii) (x : jsstring) :
  is_ws c = false -> nonblank (c :: x) = true.
Proof.
  intros Hc. unfold nonblank, trim. cbn [ltrim]. rewrite Hc.
  unfold rtrim. cbn [rev].
  pose proof (ltrim_snoc_nonblank (rev x) c Hc) as Hne.
  destruct (ltrim (rev x ++ [c])) as [|a y] eqn:Hl; [done|].
  cbn [rev]. by destruct (rev y).
Qed.

Lemma booleanWords_nonblank (value : jsstring) :
  toLowerCase value ∈ Sampling.booleanWords -> nonblank value = true.
Proof.
  destruct value as [|a value].
  { intros Hw. exfalso. revert Hw. apply (bool_decide_unpack _). reflexivity. }
  intros Hw. apply nonblank_head. rewrite <- is_ws_lower.
  unfold Sampling.booleanWords in Hw.
  change (toLowerCase (a :: value)) with (lower a :: toLowerCase value) in Hw.
  repeat (apply elem_of_cons in Hw as [Hw|Hw]);
    [..|by apply elem_of_nil in Hw];
    apply (f_equal head) in Hw; injection Hw as ->; reflexivity.
Qed.

(** X18: the classification of a cell by the sampling profiler.  The cell
    is Boolean exactly when its lower-case form is one of the six words, the
    texts 0 and 1 among them, so a blank cell is never Boolean; it is Numeric
    exactly when the profiler of today takes it for numeric and it is none of
    the six words; it is String in every other case. *)
Theorem inferDataType_cases (value : jsstring) :
  (Sampling.inferDataType value = Sampling.CBoolean
   <-> toLowerCase value ∈ Sampling.booleanWords)
  /\ (Sampling.inferDataType value = Sampling.CNumeric
      <-> isNumeric value = true /\ toLowerCase value ∉ Sampling.booleanWords)
  /\ (Sampling.inferDataType value = Sampling.CString
      <-> isNumeric value = false /\ toLowerCase value ∉ Sampling.booleanWords).
Proof.
  pose proof (booleanWords_nonblank value) as Hword.
  unfold Sampling.inferDataType, isNumeric.
  destruct (nonblank value) eqn:Hnb; simpl.
  - case_bool_decide as Hw; destruct (isNaN (Number value)); simpl;
      intuition congruence.
  - intuition congruence.
Qed.

(** ** White space at the end of a line *)

Lemma ltrim_snoc_ws (x : jsstring) (c : ascii) :
  is_ws c = true ->
  ltrim (x ++ [c]) = match ltrim x with [] => [] | _ :: _ => ltrim x ++ [c] end.
Proof.
  intros Hc. induction x as [|a x IH]; simpl.
  - by rewrite Hc.
  - by destruct (is_ws a).
Qed.

Lemma trim_snoc_ws (x : jsstring) (c : ascii) :
  is_ws c = true -> trim (x ++ [c]) = trim x.
Proof.
  intros Hc. unfold trim. rewrite ltrim_snoc_ws by done.
  destruct (ltrim x) as [|a y]; [done|].
  unfold rtrim. rewrite rev_app_distr. cbn [rev app ltrim]. by rewrite Hc.
Qed.

Lemma split_snoc (sep c : ascii) (s : jsstring) :
  c <> sep ->
  exists init lst, split sep s = init ++ [lst]
    /\ split sep (s ++ [c]) = init ++ [lst ++ [c]].
Proof.
  intros Hc. induction s as [|a s (init & lst & Hs & Hsc)].
  - exists [], []. split; [done|]. cbn [app split].
    by rewrite (proj2 (Ascii.eqb_neq c sep) Hc).
  - rewrite <- app_comm_cons. cbn [split]. rewrite Hs, Hsc.
    destruct (Ascii.eqb a sep).
    + by exists ([] :: init), lst.
    + destruct init as [|i init]; simpl.
      * by exists [], (a :: lst).
      * by exists ((a :: i) :: init), lst.
Qed.

(** X19: white space at the end of a line does not reach the cells.  A line
    and the line followed by one more character of white space, the carriage
    return of a line end of Windows for one, are parsed to the same cells:
    the same number of cells and the same text in each. *)
Theorem parseLine_trailing_space (line : jsstring) (c : ascii) :
  is_ws c = true -> parseLine (line ++ [c]) = parseLine line.
Proof.
  intros Hc. unfold parseLine.
  destruct (split_snoc comma c line) as (init & lst & -> & ->).
  { intros ->. discriminate Hc. }
  rewrite !map_app. f_equal. simpl. unfold clean. by rewrite trim_snoc_ws.
Qed.

Lemma parseLine_trailing_space_witness :
  parseLine (str "a, b,c" ++ ["013"%char]) = [str "a"; str "b"; str "c"].
Proof.
  rewrite (parseLine_trailing_space (str "a, b,c") "013"%char eq_refl).
  reflexivity.
Defined.

(** ** The values shown for a categorical column *)

Lemma insertByCount_perm (e : jsstring * nat) (l : list (jsstring * nat)) :
  insertByCount e l ≡ₚ e :: l.
Proof.
  induction l as [|y t IH]; simpl; [done|].
  destruct (y.2 <? e.2); [done|]. rewrite IH. apply Permutation_swap.
Qed.

Lemma sortByCount_perm (l : list (jsstring * nat)) : sortByCount l ≡ₚ l.
Proof.
  unfold sortByCount. induction l as [|x l IH] using rev_ind; [done|].
  rewrite foldl_app. simpl. rewrite insertByCount_perm, IH.
  by rewrite Permutation_cons_append.
Qed.

Lemma insertByCount_sorted (e : jsstring * nat) (l : list (jsstring * nat)) :
  Sorted (fun a b : jsstring * nat => b.2 <= a.2) l ->
  Sorted (fun a b : jsstring * nat => b.2 <= a.2) (insertByCount e l).
Proof.
  induction l as [|y t IH]; simpl.
  - intros _. by repeat constructor.
  - intros [Ht Hy]%Sorted_inv.
    destruct (y.2 <? e.2) eqn:Hlt.
    + apply Nat.ltb_lt in Hlt. constructor; [by constructor|].
      constructor. lia.
    + apply Nat.ltb_ge in Hlt. constructor; [by apply IH|].
      destruct t as [|z t]; simpl.
      * by constructor.
      * destruct (z.2 <? e.2); constructor; [done|].
        by apply HdRel_inv in Hy.
Qed.

Lemma sortByCount_sorted (l : list (jsstring * nat)) :
  Sorted (fun a b : jsstring * nat => b.2 <= a.2) (sortByCount l).
Proof.
  unfold sortByCount. induction l as [|x l IH] using rev_ind; [constructor|].
  rewrite foldl_app. simpl. by apply insertByCount_sorted.
Qed.

Lemma insertIndexed_perm {V} (e : Z * (jsstring * V)) l :
  insertIndexed e l ≡ₚ e :: l.
Proof.
  induction l as [|y t IH]; simpl; [done|].
  destruct (e.1 <? y.1)%Z; [done|]. rewrite IH. apply Permutation_swap.
Qed.

Lemma objectEntries_perm {V} (o : list (jsstring * V)) : objectEntries o ≡ₚ o.
Proof.
  unfold objectEntries.
  set (indexed := omap _ o).
  assert (Hfold : foldl (fun acc e => insertIndexed e acc) [] indexed ≡ₚ indexed).
  { generalize indexed. intros l. induction l as [|x l IH] using rev_ind; [done|].
    rewrite foldl_app. simpl. rewrite insertIndexed_perm, IH.
    by rewrite Permutation_cons_append. }
  rewrite Hfold. unfold indexed. clear.
  induction o as [|e o IH]; [done|]. cbn [omap list_omap List.filter].
  fold (@omap list _ _ _ (fun e : jsstring * V =>
          match arrayIndex e.1 with Some i => Some (i, e) | None => None end) o).
  destruct (arrayIndex e.1); simpl.
  - by rewrite IH.
  - rewrite <- Permutation_middle. by rewrite IH.
Qed.

Lemma countOf_elem (k : jsstring) (n : nat) (l : list (jsstring * nat)) :
  NoDup (map fst l) -> (k, n) ∈ l -> countOf k l = Some n.
Proof.
  induction l as [|[k' n'] l IH]; [by intros _ ?%elem_of_nil|].
  cbn [map fst countOf]. intros [Hk Hnd]%NoDup_cons [[= -> ->]|Hin]%elem_of_cons.
  - by rewrite eqb_str_refl.
  - destruct (eqb_str k' k) eqn:E; [|by apply IH].
    apply eqb_str_true in E as ->. destruct Hk.
    apply list_elem_of_fmap. by exists (k, n).
Qed.

(** X20: the values shown for a categorical column are values that occur
    most often, for values none of which names an inherited property (for
    such a value the count of the code is no number).  The entries of the
    counts, read as the host lists them and sorted as the code sorts them,
    are the entries of the counts, each once; every entry is a value of the
    column with the number of its occurrences; and whatever the number of
    entries shown, three in the message, no entry that is left out has a
    larger count than an entry that is shown. *)
Theorem topValues_largest (data : list jsstring) :
  Forall (fun v => v ∉ inheritedNames) data ->
  let valueCounts := CategoricalStats.valueCounts (getCategoricalStats data) in
  let sorted := sortByCount (objectEntries valueCounts) in
  sorted ≡ₚ valueCounts
  /\ (forall e, e ∈ sorted -> e.1 ∈ data /\ e.2 = occurrences e.1 data)
  /\ forall k e e', e ∈ take k sorted -> e' ∈ drop k sorted ->
       e'.2 <= e.2 /\ occurrences e'.1 data <= occurrences e.1 data.
Proof.
  intros _ valueCounts sorted.
  assert (Hperm : sorted ≡ₚ valueCounts).
  { unfold sorted. by rewrite sortByCount_perm, objectEntries_perm. }
  assert (Hcount : forall e, e ∈ sorted ->
            e.1 ∈ data /\ e.2 = occurrences e.1 data).
  { intros [v n] Hin. rewrite Hperm in Hin. simpl.
    destruct (valueCounts_keys data) as [Hnd Hkeys].
    assert (Hv : v ∈ data).
    { apply Hkeys, list_elem_of_fmap. by exists (v, n). }
    split; [done|].
    pose proof (countOf_elem v n _ Hnd Hin) as Hc.
    rewrite valueCounts_countOf in Hc.
    destruct (occurrences v data =? 0); [done|]. by injection Hc. }
  split; [done|]. split; [done|].
  intros k e e' He He'.
  assert (Hs : StronglySorted (fun a b : jsstring * nat => b.2 <= a.2) sorted).
  { apply Sorted_StronglySorted; [|apply sortByCount_sorted].
    intros a b c ? ?. lia. }
  rewrite <- (take_drop k sorted) in Hs.
  pose proof (StronglySorted_app_1_elem_of _ _ _ e e' Hs He He') as Hle.
  split; [done|].
  destruct (Hcount e) as [_ <-].
  { rewrite <- (take_drop k sorted). apply elem_of_app. by left. }
  destruct (Hcount e') as [_ <-]; [|done].
  rewrite <- (take_drop k sorted). apply elem_of_app. by right.
Qed.

(** Three values, one of them twice: it comes first. *)
Lemma topValues_largest_witness :
  let data := [str "x"; str "y"; str "x"; str "z"] in
  sortByCount (objectEntries (CategoricalStats.valueCounts (getCategoricalStats data)))
  ≡ₚ [(str "x", 2); (str "y", 1); (str "z", 1)].
Proof.
  intros data.
  refine (proj1 (topValues_largest data _)).
  repeat constructor; apply (bool_decide_unpack _); reflexivity.
Defined.

(** ** The columns of the sampling profiler *)

